(** * Market-demand derivation and insight synthesis

    A shallow embedding of [analyzer/models.py], [analyzer/data_processor.py]
    and [analyzer/ai_processor.py], and the properties of the aggregation and
    insight pipeline established on it.

    Modelling conventions.
    - Python floats are idealised as exact rationals ([Q]); comparisons are
      the exact ones, [round(x, 2)] and the [:.2f] / [:.1f] formats round
      half to even on the exact value.
    - A [datetime] is a number of seconds counted from the midnight that
      starts Monday 0001-01-01; [date] is the day number and [weekday] the
      day number modulo 7 (Monday is 0), as [datetime.date()] and
      [datetime.weekday()] give them.
    - A database table without an explicit ordering is read in the order of
      the list that models it.
    - Every access to the database may fail: the world carries a fault plan,
      one flag per future access, consumed in order. *)

From Stdlib Require Import ZArith QArith Lia.
From stdpp Require Import gmap strings list fin_maps pretty sorting.

(** ** Numbers *)

Module Num.

Definition Qltb (a b : Q) : bool := negb (Qle_bool b a).

Definition Qsum (l : list Q) : Q := foldl Qplus (0 # 1)%Q l.

Definition Qlen {A} (l : list A) : Q := inject_Z (Z.of_nat (length l)).

(** [sum(prices) / len(prices)] *)
Definition mean (l : list Q) : Q := (Qsum l / Qlen l)%Q.

(** Python's [min] and [max] over a non-empty list: the first of the
    smallest (largest) elements. *)
Definition py_min (x : Q) (l : list Q) : Q :=
  foldl (fun m y => if Qltb y m then y else m) x l.
Definition py_max (x : Q) (l : list Q) : Q :=
  foldl (fun m y => if Qltb m y then y else m) x l.

(** Nearest integer, ties to the even one. *)
Definition round_half_even (q : Q) : Z :=
  let n := Qnum q in
  let d := Z.pos (Qden q) in
  let fl := (n / d)%Z in
  let r2 := (2 * (n mod d))%Z in
  if (r2 <? d)%Z then fl
  else if (d <? r2)%Z then (fl + 1)%Z
  else if Z.even fl then fl else (fl + 1)%Z.

(** [round(x, 2)] *)
Definition round2 (q : Q) : Q := (round_half_even (q * (100 # 1)) # 100)%Q.

Fixpoint zeros (n : nat) : string :=
  match n with O => "" | S k => "0" +:+ zeros k end.

(** [f"{x:.pf}"]: fixed-point notation with [p] digits after the point. *)
Definition fmt_fixed (p : nat) (q : Q) : string :=
  let scale := (10 ^ Z.of_nat p)%Z in
  let c := Z.abs (round_half_even (q * inject_Z scale)) in
  let frac := pretty (c mod scale)%Z in
  (if Qltb q (0 # 1) then "-" else "")
    +:+ pretty (c / scale)%Z +:+ "."
    +:+ zeros (p - String.length frac) +:+ frac.

End Num.

(** ** Data model ([models.py]) *)

Module Models.

Record Airport := { iata_code : string; city : string }.

Record Route := { route_id : Z; origin : Airport; destination : Airport }.

(** [price] is a non-null column; a record that nevertheless lacks it
    carries [None], on which [float(f.price)] raises. *)
Record FlightData := {
  route : Route;
  departure_time : Z;
  price : option Q;
  scraped_at : Z
}.

Inductive PriceTrend := increasing | decreasing | stable.
Inductive DemandLevel := low | medium | high | very_high.

(** One row per (route, date): the pair is the key of the table. *)
Record MarketDemand := {
  search_volume : nat;
  average_price : Q;
  price_trend : PriceTrend;
  demand_level : DemandLevel
}.

Record Insight := {
  id : nat;
  title : string;
  description : string;
  insight_type : string;
  confidence_score : Q;
  generated_by : string
}.

Definition day : Z := 86400.
Definition timedelta (days : Z) : Z := (days * day)%Z.
Definition date (t : Z) : Z := (t / day)%Z.
Definition weekday (t : Z) : Z := (date t mod 7)%Z.

End Models.

(** ** Exceptions, the database and the monad of a run *)

Module Py.
Import Models.

Inductive exn :=
| DatabaseError | TypeError | KeyError | ZeroDivisionError | AttributeError
| MultipleObjectsReturned.

Inductive outcome (A : Type) :=
| Return (a : A)
| Raise (e : exn).
Arguments Return {A} a.
Arguments Raise {A} e.

(** The database and what a run can observe of it.  [faults] is the fault
    plan: the head says whether the next access fails.  [result_cache]
    tells whether the [recent_flights] query set of the current run has
    been evaluated (an evaluated query set is iterated from its cache). *)
Record World := {
  flight_data : list FlightData;
  market_demand : gmap (Z * Z) MarketDemand;
  insights : list Insight;
  faults : list bool;
  result_cache : bool
}.

Definition set_market_demand (m : gmap (Z * Z) MarketDemand) (w : World) : World :=
  {| flight_data := flight_data w; market_demand := m; insights := insights w;
     faults := faults w; result_cache := result_cache w |}.
Definition set_insights (l : list Insight) (w : World) : World :=
  {| flight_data := flight_data w; market_demand := market_demand w; insights := l;
     faults := faults w; result_cache := result_cache w |}.
Definition set_faults (p : list bool) (w : World) : World :=
  {| flight_data := flight_data w; market_demand := market_demand w;
     insights := insights w; faults := p; result_cache := result_cache w |}.
Definition set_result_cache (b : bool) (w : World) : World :=
  {| flight_data := flight_data w; market_demand := market_demand w;
     insights := insights w; faults := faults w; result_cache := b |}.

Definition M (A : Type) : Type := World -> outcome A * World.

Definition ret {A} (a : A) : M A := fun w => (Return a, w).
Definition raise {A} (e : exn) : M A := fun w => (Raise e, w).
Definition bind {A B} (c : M A) (k : A -> M B) : M B :=
  fun w => match c w with
           | (Return a, w') => k a w'
           | (Raise e, w') => (Raise e, w')
           end.
(** [try: c  except Exception as e: h e] *)
Definition try_except {A} (c : M A) (h : exn -> M A) : M A :=
  fun w => match c w with
           | (Return a, w') => (Return a, w')
           | (Raise e, w') => h e w'
           end.

Declare Scope py_scope.
Delimit Scope py_scope with py.
Notation "x <- c ;; k" := (bind c (fun x => k))
  (at level 100, c at next level, right associativity) : py_scope.
Notation "c ;;; k" := (bind c (fun _ => k))
  (at level 100, right associativity) : py_scope.
Open Scope py_scope.

Definition get_world : M World := fun w => (Return w, w).
Definition modify (f : World -> World) : M unit := fun w => (Return tt, f w).

(** [for x in l: acc = f acc x] *)
Fixpoint foldM {A B} (f : B -> A -> M B) (acc : B) (l : list A) : M B :=
  match l with
  | [] => ret acc
  | x :: l' => acc' <- f acc x ;; foldM f acc' l'
  end.

(** [[f x for x in l]] *)
Fixpoint mapM {A B} (f : A -> M B) (l : list A) : M (list B) :=
  match l with
  | [] => ret []
  | x :: l' => y <- f x ;; ys <- mapM f l' ;; ret (y :: ys)
  end.

(** [float(p)] *)
Definition float (p : option Q) : M Q :=
  match p with Some q => ret q | None => raise TypeError end.

(** One access to the database. *)
Definition db_access : M unit :=
  fun w => match faults w with
           | true :: plan => (Raise DatabaseError, set_faults plan w)
           | false :: plan => (Return tt, set_faults plan w)
           | [] => (Return tt, w)
           end.

Definition nonempty {A} (l : list A) : bool :=
  match l with [] => false | _ :: _ => true end.

(** The lazy query set [recent_flights]: [.exists()] and iteration. *)
Definition qs_exists (qs : list FlightData) : M bool :=
  w <- get_world ;;
  if result_cache w then ret (nonempty qs)
  else (db_access ;;; ret (nonempty qs)).

Definition qs_iter (qs : list FlightData) : M (list FlightData) :=
  w <- get_world ;;
  if result_cache w then ret qs
  else (db_access ;;; modify (set_result_cache true) ;;; ret qs).

(** [FlightData.objects.filter(scraped_at__gte=since)] *)
Definition recent_flights (since : Z) (w : World) : list FlightData :=
  filter (fun f => (since <= scraped_at f)%Z) (flight_data w).

(** Python dictionaries keep insertion order: a dictionary of lists is an
    association list, [d[k].append(v)] after [if k not in d: d[k] = []]. *)
Fixpoint dict_append {K V} `{EqDecision K} (k : K) (v : V)
    (d : list (K * list V)) : list (K * list V) :=
  match d with
  | [] => [(k, [v])]
  | (k', vs) :: rest =>
      if decide (k = k') then (k', vs ++ [v]) :: rest
      else (k', vs) :: dict_append k v rest
  end.

End Py.

(** ** [data_processor.py] *)

Module DataProcessor.
Import Models Py Num.

(** [{'processed': .., 'insights_generated': .., 'error': ..}]; the
    ['error'] entry is present only in the result of the handler. *)
Record ProcessResult := {
  processed : nat;
  insights_generated : nat;
  error : option exn
}.

(** [MarketDemand.objects.filter(route=route, date__gte=week_ago,
    date__lt=current_date).order_by('-date')]: the rows of the route whose
    date is in the range, most recent first, each with its date. *)
Definition historical_data (md : gmap (Z * Z) MarketDemand)
    (route week_ago current_date : Z) : list (Z * MarketDemand) :=
  omap (fun d => pair d <$> md !! (route, d))
       (reverse (seqZ week_ago (current_date - week_ago))).

Definition hist_exists (route week_ago current_date : Z) : M bool :=
  db_access ;;;
  w <- get_world ;;
  ret (nonempty (historical_data (market_demand w) route week_ago current_date)).

Definition hist_first (route week_ago current_date : Z) : M (option (Z * MarketDemand)) :=
  db_access ;;;
  w <- get_world ;;
  ret (head (historical_data (market_demand w) route week_ago current_date)).

Definition calculate_price_trend (route current_date : Z) (current_price : Q)
    : M PriceTrend :=
  try_except
    (let week_ago := (current_date - 7)%Z in
     ex <- hist_exists route week_ago current_date ;;
     if negb ex then ret stable
     else
       first <- hist_first route week_ago current_date ;;
       match first with
       | None => raise AttributeError
       | Some (_, row) =>
           let recent_price := average_price row in
           if Qeq_bool recent_price (0 # 1) then raise ZeroDivisionError
           else
             let price_change := ((current_price - recent_price) / recent_price)%Q in
             if Qltb (1 # 10) price_change then ret increasing
             else if Qltb price_change (- (1 # 10)) then ret decreasing
             else ret stable
       end)
    (fun _ => ret stable).

(** The enclosing [try] cannot fail on an integer count. *)
Definition calculate_demand_level (search_volume : nat) (avg_price : Q) : DemandLevel :=
  if (20 <=? search_volume)%nat then very_high
  else if (10 <=? search_volume)%nat then high
  else if (5 <=? search_volume)%nat then medium
  else low.

(** [Route.objects.get(id=route_id)]; the row exists, [route_id] being
    taken from a foreign key. *)
Definition route_get (route_id : Z) : M Z := db_access ;;; ret route_id.

(** [MarketDemand.objects.update_or_create(route=, date=, defaults=)];
    returns [created]. *)
Definition update_or_create (route d : Z) (defaults : MarketDemand) : M bool :=
  db_access ;;;
  w <- get_world ;;
  modify (set_market_demand (<[(route, d) := defaults]> (market_demand w))) ;;;
  ret (bool_decide (market_demand w !! (route, d) = None)).

Definition group_key (flight : FlightData) : Z * Z :=
  (route_id (route flight), date (departure_time flight)).

(** The first loop: [route_date_groups]. *)
Definition route_date_groups (flights : list FlightData)
    : list ((Z * Z) * list FlightData) :=
  foldl (fun d flight => dict_append (group_key flight) flight d) [] flights.

(** The body of the second loop. *)
Definition process_group (processed_count : nat)
    (g : (Z * Z) * list FlightData) : M nat :=
  let '((route_id, flight_date), flights) := g in
  route <- route_get route_id ;;
  prices <- mapM (fun f => float (price f)) flights ;;
  let avg_price := mean prices in
  let search_volume := length flights in
  price_trend <- calculate_price_trend route flight_date avg_price ;;
  let demand_level := calculate_demand_level search_volume avg_price in
  created <- update_or_create route flight_date
               {| search_volume := search_volume;
                  average_price := round2 avg_price;
                  price_trend := price_trend;
                  demand_level := demand_level |} ;;
  ret (if created : bool then S processed_count else processed_count).

Definition process_flight_data (now : Z) : M ProcessResult :=
  try_except
    (w <- get_world ;;
     let recent := recent_flights (now - timedelta 30) w in
     modify (set_result_cache false) ;;;
     ex <- qs_exists recent ;;
     if negb ex then
       ret {| processed := 0; insights_generated := 0; error := None |}
     else
       flights <- qs_iter recent ;;
       processed_count <- foldM process_group 0%nat (route_date_groups flights) ;;
       ret {| processed := processed_count; insights_generated := 0;
              error := None |})
    (fun e => ret {| processed := 0; insights_generated := 0; error := Some e |}).

End DataProcessor.

(** ** [ai_processor.py] *)

Module AIProcessor.
Import Models Py Num.

(** An insight as the analyzers build it: a dictionary with the keys
    ['title'], ['description'], ['type'] and, possibly, ['confidence']. *)
Record InsightData := {
  d_title : string;
  d_description : string;
  d_type : string;
  d_confidence : option Q
}.

(** [self.model] is absent without an API key.  When present it is
    represented by what [generate_gemini_insights] extracts from its
    reply: the parsed JSON list (empty when the call or the parsing
    fails); [None] stands for an element that lacks one of the keys
    ['title'], ['description'], ['type']. *)
Record Processor := { model : option (list (option InsightData)) }.

Record SerializedInsight := {
  s_id : nat;
  s_title : string;
  s_description : string;
  s_type : string;
  s_confidence : Q;
  s_generated_by : string
}.

(** [created_at] is left out: the model has no clock for it. *)
Definition serialize_insight (insight : Insight) : SerializedInsight :=
  {| s_id := id insight; s_title := title insight;
     s_description := description insight; s_type := insight_type insight;
     s_confidence := confidence_score insight;
     s_generated_by := generated_by insight |}.

(** [Insight.objects.get_or_create(title=t, defaults=...)] *)
Definition get_or_create (t : string) (descr type : string) (confidence : Q)
    (by_ : string) : M (Insight * bool) :=
  db_access ;;;
  w <- get_world ;;
  match filter (fun i => title i = t) (insights w) with
  | [] =>
      let insight := {| id := S (length (insights w)); title := t;
                        description := descr; insight_type := type;
                        confidence_score := confidence; generated_by := by_ |} in
      modify (set_insights (insights w ++ [insight])) ;;;
      ret (insight, true)
  | [insight] => ret (insight, false)
  | _ => raise MultipleObjectsReturned
  end.

Definition iata_key (flight : FlightData) : string :=
  iata_code (origin (route flight)) +:+ "-" +:+ iata_code (destination (route flight)).

Definition city_key (flight : FlightData) : string :=
  city (origin (route flight)) +:+ " to " +:+ city (destination (route flight)).

(** *** Price volatility *)

Definition high_volatility (route_key : string) (min_price max_price avg_price : Q)
    : InsightData :=
  {| d_title := "High Price Volatility on " +:+ route_key +:+ " Route";
     d_description :=
       "The " +:+ route_key
       +:+ " route shows significant price fluctuations with prices ranging from $"
       +:+ fmt_fixed 2 min_price +:+ " to $" +:+ fmt_fixed 2 max_price
       +:+ " (average: $" +:+ fmt_fixed 2 avg_price
       +:+ "). This indicates high demand variability or limited seat availability.";
     d_type := "price_trend";
     d_confidence := Some (85 # 100)%Q |}.

Definition budget_friendly (route_key : string) (avg_price : Q) : InsightData :=
  {| d_title := "Budget-Friendly Route: " +:+ route_key;
     d_description :=
       "The " +:+ route_key
       +:+ " route offers competitive pricing with an average of $"
       +:+ fmt_fixed 2 avg_price
       +:+ ". This route shows stable, affordable pricing suitable for budget-conscious travelers.";
     d_type := "price_trend";
     d_confidence := Some (9 # 10)%Q |}.

(** One turn of the loop over [route_prices.items()]: [Return None] is
    [continue] or no branch taken, [Raise] the division by a zero mean. *)
Definition route_insight (route_key : string) (prices : list Q)
    : outcome (option InsightData) :=
  if (length prices <? 3)%nat then Return None
  else
    match prices with
    | [] => Return None
    | p :: ps =>
        let avg_price := mean prices in
        let min_price := py_min p ps in
        let max_price := py_max p ps in
        if Qeq_bool avg_price (0 # 1) then Raise ZeroDivisionError
        else
          let price_volatility := ((max_price - min_price) / avg_price)%Q in
          if Qltb (1 # 2) price_volatility then
            Return (Some (high_volatility route_key min_price max_price avg_price))
          else if Qltb avg_price (200 # 1) then
            Return (Some (budget_friendly route_key avg_price))
          else Return None
    end.

(** The loop itself, with the list [insights] it appends to.  An exception
    leaves the loop for the handler, which logs; the function then returns
    the list as it stands. *)
Fixpoint price_loop (route_prices : list (string * list Q))
    (insights : list InsightData) : list InsightData :=
  match route_prices with
  | [] => insights
  | (route_key, prices) :: rest =>
      match route_insight route_key prices with
      | Raise _ => insights
      | Return None => price_loop rest insights
      | Return (Some i) => price_loop rest (insights ++ [i])
      end
  end.

(** Before the second loop nothing has been appended: an exception of the
    first loop gives the empty list. *)
Definition analyze_price_trends (flights : list FlightData) : M (list InsightData) :=
  try_except
    (rows <- qs_iter flights ;;
     route_prices <- foldM (fun d flight =>
                              p <- float (price flight) ;;
                              ret (dict_append (iata_key flight) p d)) [] rows ;;
     ret (price_loop route_prices []))
    (fun _ => ret []).

(** *** Popular routes *)

Record RouteCount := { count : nat; iata : string }.

(** [if k not in d: d[k] = {'count': 0, 'iata': ..}] then
    [d[k]['count'] += 1]. *)
Fixpoint count_route (route_key route_iata : string)
    (d : list (string * RouteCount)) : list (string * RouteCount) :=
  match d with
  | [] => [(route_key, {| count := 1; iata := route_iata |})]
  | (k, c) :: rest =>
      if decide (route_key = k)
      then (k, {| count := S (count c); iata := iata c |}) :: rest
      else (k, c) :: count_route route_key route_iata rest
  end.

Definition route_counts (flights : list FlightData) : list (string * RouteCount) :=
  foldl (fun d flight => count_route (city_key flight) (iata_key flight) d) [] flights.

(** [sorted(items, key=lambda x: x[1]['count'], reverse=True)]: Python's
    sort is stable, also when reversed.  A stable sort has one possible
    result, computed here by insertion. *)
Fixpoint insert_desc (x : string * RouteCount) (l : list (string * RouteCount))
    : list (string * RouteCount) :=
  match l with
  | [] => [x]
  | y :: l' =>
      if (count (snd y) <=? count (snd x))%nat then x :: y :: l'
      else y :: insert_desc x l'
  end.

Definition sorted_desc (l : list (string * RouteCount)) : list (string * RouteCount) :=
  foldr insert_desc [] l.

Definition popular_route (i : nat) (item : string * RouteCount) : InsightData :=
  let '(route_name, data) := item in
  {| d_title := "Popular Route #" +:+ pretty (i + 1)%nat +:+ ": " +:+ route_name;
     d_description :=
       route_name +:+ " (" +:+ iata data +:+ ") is showing high activity with "
       +:+ pretty (count data)
       +:+ " flights in the analyzed period. This route demonstrates strong market demand and frequent service availability.";
     d_type := "popular_route";
     d_confidence := Some (9 # 10)%Q |}.

Definition analyze_popular_routes (flights : list FlightData) : M (list InsightData) :=
  try_except
    (rows <- qs_iter flights ;;
     let sorted_routes := sorted_desc (route_counts rows) in
     ret (imap popular_route (take 3 sorted_routes)))
    (fun _ => ret []).

(** *** Weekend against weekday prices *)

Definition weekend_premium (avg_weekend_price avg_weekday_price : Q) : InsightData :=
  {| d_title := "Weekend Premium Pricing Pattern";
     d_description :=
       "Weekend flights show premium pricing with an average of $"
       +:+ fmt_fixed 2 avg_weekend_price +:+ " compared to $"
       +:+ fmt_fixed 2 avg_weekday_price
       +:+ " for weekday flights. This represents a "
       +:+ fmt_fixed 1 ((avg_weekend_price / avg_weekday_price - (1 # 1)) * (100 # 1))%Q
       +:+ "% weekend premium.";
     d_type := "seasonal_pattern";
     d_confidence := Some (85 # 100)%Q |}.

Definition is_weekend (flight : FlightData) : bool :=
  (5 <=? weekday (departure_time flight))%Z.

(** The query set of this analyzer is its own: both [.exists()] and the
    iteration go to the database. *)
Definition analyze_seasonal_patterns (now : Z) : M (list InsightData) :=
  try_except
    (w <- get_world ;;
     let end_date := date now in
     let start_date := (end_date - 10)%Z in
     let flights :=
       filter (fun f => (start_date <= date (departure_time f) <= end_date)%Z)
              (flight_data w) in
     db_access ;;;
     if negb (nonempty flights) then ret []
     else
       db_access ;;;
       weekend_prices <- mapM (fun f => float (price f)) (List.filter is_weekend flights) ;;
       weekday_prices <- mapM (fun f => float (price f))
                           (List.filter (fun f => negb (is_weekend f)) flights) ;;
       if nonempty weekend_prices && nonempty weekday_prices then
         let avg_weekend_price := mean weekend_prices in
         let avg_weekday_price := mean weekday_prices in
         if Qltb (avg_weekday_price * (11 # 10)) avg_weekend_price then
           if Qeq_bool avg_weekday_price (0 # 1) then raise ZeroDivisionError
           else ret [weekend_premium avg_weekend_price avg_weekday_price]
         else ret []
       else ret [])
    (fun _ => ret []).

(** *** The text generator *)

(** Only what [prepare_flight_summary] does to the database is kept: it
    iterates the query set inside its own [try]; the text it builds goes
    to the external generator, whose reply is part of [Processor]. *)
Definition prepare_flight_summary (flights : list FlightData) : M unit :=
  try_except
    (rows <- qs_iter flights ;;
     mapM (fun f => float (price f)) rows ;;;
     ret tt)
    (fun _ => ret tt).

Definition generate_gemini_insights (self : Processor) (flights : list FlightData)
    : M (list (option InsightData)) :=
  try_except
    (match model self with
     | None => ret []
     | Some reply => prepare_flight_summary flights ;;; ret reply
     end)
    (fun _ => ret []).

(** *** Fallback and entry point *)

Definition mock_insights : list InsightData :=
  [ {| d_title := "Sydney-Melbourne Route Shows Strong Demand";
       d_description := "The Sydney to Melbourne route demonstrates consistent high booking volume with competitive pricing averaging $180-220. This route represents a key opportunity for business travelers and weekend getaways.";
       d_type := "popular_route";
       d_confidence := Some (85 # 100)%Q |};
    {| d_title := "Weekend Premium Pricing Detected";
       d_description := "Flight prices show a 15-25% increase during weekends across major Australian routes. This premium pricing indicates higher leisure travel demand on weekends.";
       d_type := "seasonal_pattern";
       d_confidence := Some (9 # 10)%Q |};
    {| d_title := "Brisbane-Gold Coast Corridor Opportunity";
       d_description := "The Brisbane to Gold Coast route shows growing demand with relatively stable pricing. This short-haul route could benefit from increased frequency during peak tourist seasons.";
       d_type := "demand_forecast";
       d_confidence := Some (75 # 100)%Q |} ].

(** The body of both saving loops: [insight_data['title']] and the other
    subscripts are evaluated before the database is reached;
    [insight_data.get('confidence', 0.8)] supplies the default. *)
Definition save_insight (by_ : string) (saved_insights : list Insight)
    (insight_data : option InsightData) : M (list Insight) :=
  match insight_data with
  | None => raise KeyError
  | Some d =>
      r <- get_or_create (d_title d) (d_description d) (d_type d)
             (default (8 # 10)%Q (d_confidence d)) by_ ;;
      ret (if snd r : bool then saved_insights ++ [fst r] else saved_insights)
  end.

Definition generate_mock_insights : M (list SerializedInsight) :=
  saved_insights <- foldM (save_insight "Mock_AI_Processor") [] (Some <$> mock_insights) ;;
  ret (serialize_insight <$> saved_insights).

Definition generate_insights (self : Processor) (now : Z) : M (list SerializedInsight) :=
  try_except
    (w <- get_world ;;
     let recent := recent_flights (now - timedelta 7) w in
     modify (set_result_cache false) ;;;
     ex <- qs_exists recent ;;
     if negb ex then generate_mock_insights
     else
       price_insights <- analyze_price_trends recent ;;
       route_insights <- analyze_popular_routes recent ;;
       seasonal_insights <- analyze_seasonal_patterns now ;;
       ai_insights <- (if model self is Some _
                       then generate_gemini_insights self recent else ret []) ;;
       let insights :=
         (Some <$> (price_insights ++ route_insights ++ seasonal_insights))
           ++ ai_insights in
       saved_insights <- foldM (save_insight "AI_Processor") [] insights ;;
       ret (serialize_insight <$> saved_insights))
    (fun _ => generate_mock_insights).

End AIProcessor.

(** ** The fault-free reading of the code, and the vocabulary of its properties

    What [process_flight_data] computes when no database access fails and
    every price is present, as plain functions ([process_flight_data_pure]
    below proves that the run agrees with them), and the notions in which
    the properties of the aggregator and of the analyzers are stated. *)

Module Pure.
Import Models Py Num DataProcessor.

Definition trend_of (first : option (Z * MarketDemand)) (current_price : Q) : PriceTrend :=
  match first with
  | None => stable
  | Some (_, row) =>
      let recent_price := average_price row in
      if Qeq_bool recent_price (0 # 1) then stable
      else
        let price_change := ((current_price - recent_price) / recent_price)%Q in
        if Qltb (1 # 10) price_change then increasing
        else if Qltb price_change (- (1 # 10)) then decreasing
        else stable
  end.

Definition trend (md : gmap (Z * Z) MarketDemand) (route current_date : Z)
    (current_price : Q) : PriceTrend :=
  trend_of (head (historical_data md route (current_date - 7) current_date))
           current_price.

Definition row_of (md : gmap (Z * Z) MarketDemand) (key : Z * Z) (prices : list Q)
    : MarketDemand :=
  {| search_volume := length prices;
     average_price := round2 (mean prices);
     price_trend := trend md key.1 key.2 (mean prices);
     demand_level := calculate_demand_level (length prices) (mean prices) |}.

Definition upsert_group (md : gmap (Z * Z) MarketDemand)
    (g : (Z * Z) * list Q) : gmap (Z * Z) MarketDemand :=
  <[g.1 := row_of md g.1 g.2]> md.

Definition upsert_groups (groups : list ((Z * Z) * list Q))
    (md : gmap (Z * Z) MarketDemand) : gmap (Z * Z) MarketDemand :=
  foldl upsert_group md groups.

(** Non-decreasing date order per route, on a sequence of keys. *)
Definition date_ordered (keys : list (Z * Z)) : Prop :=
  forall i j k k', (i < j)%nat -> keys !! i = Some k -> keys !! j = Some k' ->
                   k.1 = k'.1 -> (k.2 <= k'.2)%Z.

(** The keys of a sequence in the order of their first occurrence. *)
Definition encounter_order {K} `{EqDecision K} (keys : list K) : list K :=
  foldl (fun seen k => if decide (k ∈ seen) then seen else seen ++ [k]) [] keys.

(** Filling a dictionary of lists from a sequence of key-value pairs, and
    what it holds in the end: under each key, in the order of first
    occurrence, the values that came with it. *)
Definition fill {K V} `{EqDecision K} (kvs : list (K * V)) : list (K * list V) :=
  foldl (fun d kv => dict_append kv.1 kv.2 d) [] kvs.

Definition values_of {K V} `{EqDecision K} (kvs : list (K * V)) (k : K) : list V :=
  snd <$> filter (fun kv => kv.1 = k) kvs.

Definition grouped {K V} `{EqDecision K} (kvs : list (K * V)) : list (K * list V) :=
  (fun k => (k, values_of kvs k)) <$> encounter_order (fst <$> kvs).

(** The order in which the second loop of [process_flight_data] visits the
    groups of a batch. *)
Definition processing_order (flights : list FlightData) : list (Z * Z) :=
  fst <$> route_date_groups flights.

Definition priced (flights : list FlightData) : Prop :=
  Forall (fun f => is_Some (price f)) flights.

Definition prices_of (flights : list FlightData) : list Q :=
  omap price flights.

(** The groups of a batch with the prices of their observations. *)
Definition priced_groups (flights : list FlightData) : list ((Z * Z) * list Q) :=
  (fun g => (g.1, prices_of g.2)) <$> route_date_groups flights.

(** The observations of a batch that belong to a key. *)
Definition observations (flights : list FlightData) (key : Z * Z) : list FlightData :=
  filter (fun f => group_key f = key) flights.


(** The stored data is the same in both worlds (the fault plan and the
    cache may differ). *)
Definition same_data (w w' : World) : Prop :=
  flight_data w' = flight_data w
  /\ market_demand w' = market_demand w
  /\ insights w' = insights w.

(** A computation that leaves the stored data as it is. *)
Definition only_reads {A} (c : M A) : Prop :=
  forall w, same_data w (snd (c w)).

(** No two stored insights with one title. *)
Definition unique_titles (stored : list Insight) : Prop :=
  NoDup (title <$> stored).

(** A computation that keeps the titles unique and the stored insights
    as they are, adding at the end at most. *)
Definition keeps_titles {A} (c : M A) : Prop :=
  forall w, unique_titles (insights w) ->
            unique_titles (insights (snd (c w)))
            /\ insights w `prefix_of` insights (snd (c w)).

(** The insight that [save_insight] creates from a candidate. *)
Definition as_insight (by_ : string) (n : nat) (d : AIProcessor.InsightData) : Insight :=
  {| id := n; title := AIProcessor.d_title d;
     description := AIProcessor.d_description d;
     insight_type := AIProcessor.d_type d;
     confidence_score := default (8 # 10)%Q (AIProcessor.d_confidence d);
     generated_by := by_ |}.

(** The insights that a saving loop creates from well-formed candidates
    when no access fails: one for each candidate whose title is not stored
    when its turn comes. *)
Fixpoint saved_of (by_ : string) (stored : list Insight)
    (candidates : list AIProcessor.InsightData) : list Insight :=
  match candidates with
  | [] => []
  | d :: rest =>
      if decide (AIProcessor.d_title d ∈ (title <$> stored))
      then saved_of by_ stored rest
      else
        let i := as_insight by_ (S (length stored)) d in
        i :: saved_of by_ (stored ++ [i]) rest
  end.

(** What [route_counts] holds under a route name, from the IATA keys of the
    observations of that name in batch order. *)
Definition tally (iatas : list string) : AIProcessor.RouteCount :=
  {| AIProcessor.count := length iatas;
     AIProcessor.iata := default "" (head iatas) |}.

Definition city_pairs (flights : list FlightData) : list (string * string) :=
  (fun f => (AIProcessor.city_key f, AIProcessor.iata_key f)) <$> flights.


(** The route keys and prices of a batch, in batch order. *)
Definition route_price_pairs (flights : list FlightData) : list (string * Q) :=
  omap (fun f => pair (AIProcessor.iata_key f) <$> price f) flights.


End Pure.

(** ** Sample data *)

Module Samples.
Import Models Py Num DataProcessor AIProcessor.

Definition syd : Airport := {| iata_code := "SYD"; city := "Sydney" |}.
Definition mel : Airport := {| iata_code := "MEL"; city := "Melbourne" |}.
Definition bne : Airport := {| iata_code := "BNE"; city := "Brisbane" |}.
Definition syd_mel : Route := {| route_id := 1; origin := syd; destination := mel |}.
Definition syd_bne : Route := {| route_id := 2; origin := syd; destination := bne |}.

(** A flight of route [r] leaving on day [d], scraped at time 0. *)
Definition flight (r : Route) (d : Z) (p : option Q) : FlightData :=
  {| route := r; departure_time := (d * day)%Z; price := p; scraped_at := 0 |}.

Definition world (fs : list FlightData) (md : gmap (Z * Z) MarketDemand)
    (stored : list Insight) (plan : list bool) : World :=
  {| flight_data := fs; market_demand := md; insights := stored;
     faults := plan; result_cache := false |}.

Definition row (avg : Q) : MarketDemand :=
  {| search_volume := 1; average_price := avg; price_trend := stable;
     demand_level := low |}.

(** Two observations of one route, the later date first. *)
Definition later_first : list FlightData :=
  [flight syd_mel 10 (Some (200 # 1)%Q); flight syd_mel 9 (Some (100 # 1)%Q)].

(** The same two observations in date order. *)
Definition in_date_order : list FlightData :=
  [flight syd_mel 9 (Some (100 # 1)%Q); flight syd_mel 10 (Some (200 # 1)%Q)].


Definition fifty : list FlightData :=
  [flight syd_mel 1 (Some (50 # 1)%Q); flight syd_mel 2 (Some (50 # 1)%Q);
   flight syd_mel 3 (Some (50 # 1)%Q)].


(** Three observations at price 0 on one route, then three at 50 on
    another. *)
Definition zero_then_fifty : list FlightData :=
  [flight syd_bne 1 (Some (0 # 1)%Q); flight syd_bne 2 (Some (0 # 1)%Q);
   flight syd_bne 3 (Some (0 # 1)%Q)] ++ fifty.

End Samples.

(** ** [api_views.py] *)

Module ApiViews.
Import Models Py AIProcessor.

(** [Response({'success': True, 'message': .., 'insights': ..})], or
    [Response({'success': False, 'message': str(e)}, status=500)]. *)
Inductive Response :=
| Response200 (message : string) (insights : list SerializedInsight)
| Response500 (message : exn).

(** [generate_insights_api]; the processor built by [AIProcessor()] is
    given. *)
Definition generate_insights_api (self : Processor) (now : Z) : M Response :=
  try_except
    (insights <- generate_insights self now ;;
     ret (Response200 ("Generated " +:+ pretty (length insights) +:+ " insights")
                      insights))
    (fun e => ret (Response500 e)).

End ApiViews.

(** ** The fault-free reading of the analyzers, and further vocabulary *)

Module Reading.
Import Models Py Num DataProcessor AIProcessor Pure.

(** A computation that never raises. *)
Definition never_raises {A} (c : M A) : Prop :=
  forall w, exists a, fst (c w) = Return a.

(** A computation that leaves a part of the world as it is. *)
Definition preserves {A B} (part : World -> B) (c : M A) : Prop :=
  forall w, part (snd (c w)) = part w.

(** The query set of the seasonal analyzer. *)
Definition seasonal_flights (now : Z) (w : World) : list FlightData :=
  filter (fun f => (date now - 10 <= date (departure_time f) <= date now)%Z)
         (flight_data w).

Definition weekend_prices (flights : list FlightData) : list Q :=
  prices_of (List.filter is_weekend flights).

Definition weekday_prices (flights : list FlightData) : list Q :=
  prices_of (List.filter (fun f => negb (is_weekend f)) flights).


(** Whether every observation has its price. *)
Definition all_priced (flights : list FlightData) : bool :=
  forallb (fun f => if price f is Some _ then true else false) flights.

(** What the three rule-based analyzers return when no access fails; an
    observation without a price makes the two that read prices return
    nothing. *)
Definition price_candidates (flights : list FlightData) : list InsightData :=
  if all_priced flights then price_loop (grouped (route_price_pairs flights)) []
  else [].

Definition popular_candidates (flights : list FlightData) : list InsightData :=
  imap popular_route (take 3 (sorted_desc (route_counts flights))).

Definition seasonal_candidates (flights : list FlightData) : list InsightData :=
  let weekend := weekend_prices flights in
  let weekday := weekday_prices flights in
  if all_priced flights && nonempty weekend && nonempty weekday then
    if Qltb (mean weekday * (11 # 10)) (mean weekend) then
      if Qeq_bool (mean weekday) (0 # 1) then []
      else [weekend_premium (mean weekend) (mean weekday)]
    else []
  else [].

(** The candidates of the three rule-based analyzers, in the order in which
    [generate_insights] concatenates them. *)
Definition rule_candidates (now : Z) (w : World) : list InsightData :=
  price_candidates (recent_flights (now - timedelta 7) w)
  ++ popular_candidates (recent_flights (now - timedelta 7) w)
  ++ seasonal_candidates (seasonal_flights now w).

(** The keys of a batch that the store does not hold, in processing
    order. *)
Definition new_keys (md : gmap (Z * Z) MarketDemand) (flights : list FlightData)
    : list (Z * Z) :=
  filter (fun key => md !! key = None) (processing_order flights).

End Reading.

Module MoreSamples.
Import Models Py Samples.


(** The two airports of one city pair under other codes. *)
Definition syd2 : Airport := {| iata_code := "SY2"; city := "Sydney" |}.
Definition syd2_mel : Route := {| route_id := 4; origin := syd2; destination := mel |}.


(** Two observations between the same two cities, from different airports
    of the first. *)
Definition two_airports : list FlightData :=
  [flight syd_mel 1 (Some (100 # 1)%Q); flight syd2_mel 1 (Some (100 # 1)%Q)].

End MoreSamples.

(** * Properties *)

Import Models Py Num DataProcessor AIProcessor Pure ApiViews Reading.

(** ** Comparisons of rationals *)



(** ** Runs without faults *)

Lemma db_access_ok (w : World) : faults w = [] -> db_access w = (Return tt, w).
Proof. intros H. unfold db_access. now rewrite H. Qed.

(** ** The history query *)

Lemma historical_data_elem md route week_ago current_date d row :
  (d, row) ∈ historical_data md route week_ago current_date
  <-> (week_ago <= d < current_date)%Z /\ md !! (route, d) = Some row.
Proof.
  unfold historical_data. rewrite list_elem_of_omap. split.
  - intros (d' & Hin & Hf). rewrite elem_of_reverse, elem_of_seqZ in Hin.
    destruct (md !! (route, d')) as [row'|] eqn:E; simpl in Hf; [|discriminate].
    injection Hf as -> ->. split; [lia | done].
  - intros [Hr Hl]. exists d. rewrite elem_of_reverse, elem_of_seqZ, Hl.
    split; [lia | done].
Qed.

Lemma historical_data_none md route week_ago current_date :
  historical_data md route week_ago current_date = []
  <-> forall d, (week_ago <= d < current_date)%Z -> md !! (route, d) = None.
Proof.
  split.
  - intros He d Hd. destruct (md !! (route, d)) as [row|] eqn:E; [|done].
    assert (Hin : (d, row) ∈ historical_data md route week_ago current_date)
      by (apply historical_data_elem; done).
    rewrite He in Hin. by apply elem_of_nil in Hin.
  - intros Hn. destruct (historical_data md route week_ago current_date)
      as [|[d row] l] eqn:E; [done|].
    assert (Hin : (d, row) ∈ historical_data md route week_ago current_date)
      by (rewrite E; left).
    apply historical_data_elem in Hin as [Hr Hl]. rewrite (Hn d Hr) in Hl. done.
Qed.

(** The first row of the history is the most recent one in the range. *)
Lemma historical_data_first md route week_ago current_date d row :
  (week_ago <= d < current_date)%Z ->
  md !! (route, d) = Some row ->
  (forall d', (d < d' < current_date)%Z -> md !! (route, d') = None) ->
  head (historical_data md route week_ago current_date) = Some (d, row).
Proof.
  intros Hr Hl Hlater.
  assert (Hnil : historical_data md route (d + 1) current_date = []).
  { apply historical_data_none. intros d' Hd'. apply Hlater. lia. }
  unfold historical_data in *.
  replace (current_date - week_ago)%Z
    with ((d - week_ago) + (1 + (current_date - (d + 1))))%Z by lia.
  rewrite seqZ_app by lia.
  replace (week_ago + (d - week_ago))%Z with d by lia.
  rewrite (seqZ_app d 1) by lia.
  rewrite !reverse_app, !omap_app, Hnil. simpl.
  change (Z.of_nat 0 + d)%Z with d.
  rewrite Hl. done.
Qed.

(** Rows that the history does not read do not matter to it. *)
Lemma historical_data_ext md md' route week_ago current_date :
  (forall d, (week_ago <= d < current_date)%Z -> md !! (route, d) = md' !! (route, d)) ->
  historical_data md route week_ago current_date
  = historical_data md' route week_ago current_date.
Proof.
  intros Hext. unfold historical_data.
  assert (H : Forall (fun d => (week_ago <= d < current_date)%Z)
                (reverse (seqZ week_ago (current_date - week_ago)))).
  { apply Forall_forall. intros d Hd.
    rewrite elem_of_reverse, elem_of_seqZ in Hd. lia. }
  revert H. generalize (reverse (seqZ week_ago (current_date - week_ago))).
  intros l H. induction H as [|d l Hd _ IH]; [done|].
  cbn [omap list_omap]. rewrite IH, (Hext d Hd). done.
Qed.

(** ** Classification *)

Lemma hist_exists_ok (w : World) (route week_ago current_date : Z) :
  faults w = [] ->
  hist_exists route week_ago current_date w
  = (Return (nonempty (historical_data (market_demand w) route week_ago current_date)), w).
Proof.
  intros Hf. unfold hist_exists, bind, get_world, ret. now rewrite (db_access_ok w Hf).
Qed.

Lemma hist_first_ok (w : World) (route week_ago current_date : Z) :
  faults w = [] ->
  hist_first route week_ago current_date w
  = (Return (head (historical_data (market_demand w) route week_ago current_date)), w).
Proof.
  intros Hf. unfold hist_first, bind, get_world, ret. now rewrite (db_access_ok w Hf).
Qed.

Lemma calculate_price_trend_pure (w : World) (route current_date : Z) (current_price : Q) :
  faults w = [] ->
  calculate_price_trend route current_date current_price w
  = (Return (trend (market_demand w) route current_date current_price), w).
Proof.
  intros Hf.
  unfold calculate_price_trend, trend, trend_of, try_except, bind.
  rewrite (hist_exists_ok w _ _ _ Hf).
  destruct (historical_data (market_demand w) route (current_date - 7) current_date)
    as [|[d row] l] eqn:E; simpl; [done|].
  rewrite (hist_first_ok w _ _ _ Hf), E. simpl.
  destruct (Qeq_bool (average_price row) 0); [done|].
  destruct (Qltb (1 # 10) _); [done|].
  destruct (Qltb _ (- (1 # 10))); done.
Qed.

Lemma same_data_refl w : same_data w w.
Proof. by unfold same_data. Qed.

Lemma same_data_trans w1 w2 w3 : same_data w1 w2 -> same_data w2 w3 -> same_data w1 w3.
Proof. unfold same_data. intros (-> & -> & ->) (-> & -> & ->). done. Qed.

Lemma db_access_same w : same_data w (snd (db_access w)).
Proof. unfold db_access. destruct (faults w) as [|[] plan]; by unfold same_data. Qed.

Lemma hist_exists_same w route week_ago current_date :
  same_data w (snd (hist_exists route week_ago current_date w)).
Proof.
  unfold hist_exists, bind, get_world, ret.
  pose proof (db_access_same w) as H. destruct (db_access w) as [[[]|e] w']; exact H.
Qed.

Lemma hist_first_same w route week_ago current_date :
  same_data w (snd (hist_first route week_ago current_date w)).
Proof.
  unfold hist_first, bind, get_world, ret.
  pose proof (db_access_same w) as H. destruct (db_access w) as [[[]|e] w']; exact H.
Qed.

(** A failure of the history query is not an error of the classification:
    the function returns in every world, and writes nothing. *)
Lemma calculate_price_trend_returns (w : World) (route current_date : Z) (current_price : Q) :
  exists t w', calculate_price_trend route current_date current_price w = (Return t, w')
               /\ same_data w w'.
Proof.
  unfold calculate_price_trend, try_except, bind.
  pose proof (hist_exists_same w route (current_date - 7) current_date) as H1.
  destruct (hist_exists route (current_date - 7)%Z current_date w) as [[ex|e] w1];
    simpl in H1; [|eauto].
  destruct ex; simpl; [|eauto].
  pose proof (hist_first_same w1 route (current_date - 7) current_date) as H2.
  destruct (hist_first route (current_date - 7)%Z current_date w1) as [[first|e] w2];
    simpl in H2; [|eauto using same_data_trans].
  assert (H : same_data w w2) by eauto using same_data_trans.
  destruct first as [[d row]|]; unfold raise, ret; [|eauto].
  destruct (Qeq_bool (average_price row) 0); [eauto|].
  destruct (Qltb (1 # 10) _); [eauto|].
  destruct (Qltb _ (- (1 # 10))); eauto.
Qed.



(** C5: demand-level classification.  The level depends on the observation
    count alone: at least 20 gives very_high, 10 to 19 high, 5 to 9 medium,
    fewer than 5 low; so 20 is very_high, 19 and 10 are high, 9 and 5 are
    medium, 4 is low. *)
Theorem demand_level_thresholds :
  forall (count : nat) (avg_price avg_price' : Q),
    calculate_demand_level count avg_price = calculate_demand_level count avg_price'
    /\ (20 <= count -> calculate_demand_level count avg_price = very_high)
    /\ (10 <= count < 20 -> calculate_demand_level count avg_price = high)
    /\ (5 <= count < 10 -> calculate_demand_level count avg_price = medium)
    /\ (count < 5 -> calculate_demand_level count avg_price = low)
    /\ calculate_demand_level 20 avg_price = very_high
    /\ calculate_demand_level 19 avg_price = high
    /\ calculate_demand_level 10 avg_price = high
    /\ calculate_demand_level 9 avg_price = medium
    /\ calculate_demand_level 5 avg_price = medium
    /\ calculate_demand_level 4 avg_price = low.
Proof.
  intros count avg_price avg_price'. unfold calculate_demand_level.
  repeat split; try reflexivity; intros H;
    repeat match goal with
           | |- context [(?a <=? ?b)%nat] => destruct (Nat.leb_spec a b)
           end; try reflexivity; lia.
Qed.

(** ** Dictionaries of lists *)

Section Dict.
Context {K V : Type} `{EqDecision K}.
Implicit Types (k : K) (v : V) (kvs : list (K * V)) (keys : list K).

Lemma encounter_order_snoc keys k :
  encounter_order (keys ++ [k])
  = if decide (k ∈ encounter_order keys) then encounter_order keys
    else encounter_order keys ++ [k].
Proof. unfold encounter_order. now rewrite foldl_snoc. Qed.

Lemma elem_of_encounter_order keys k : k ∈ encounter_order keys <-> k ∈ keys.
Proof.
  induction keys as [|k' keys IH] using rev_ind.
  - done.
  - rewrite encounter_order_snoc. case_decide as Hin.
    + rewrite elem_of_app, list_elem_of_singleton, IH. split; [tauto|].
      intros [?| ->]; [done|]. by apply IH.
    + rewrite !elem_of_app, IH. done.
Qed.

Lemma NoDup_encounter_order keys : NoDup (encounter_order keys).
Proof.
  induction keys as [|k' keys IH] using rev_ind.
  - constructor.
  - rewrite encounter_order_snoc. case_decide as Hin; [done|].
    apply NoDup_app. split; [done|]. split.
    + intros x Hx Hx'. apply list_elem_of_singleton in Hx' as ->. done.
    + apply NoDup_singleton.
Qed.

Lemma values_of_snoc kvs k' v k :
  values_of (kvs ++ [(k', v)]) k
  = if decide (k' = k) then values_of kvs k ++ [v] else values_of kvs k.
Proof.
  unfold values_of. rewrite filter_app, fmap_app.
  rewrite filter_cons, filter_nil. simpl.
  case_decide; simpl; [done|]. by rewrite app_nil_r.
Qed.

Lemma values_of_absent kvs k : k ∉ (fst <$> kvs) -> values_of kvs k = [].
Proof.
  intros Hk. unfold values_of.
  induction kvs as [|[k' v] kvs IH]; [done|].
  rewrite fmap_cons, not_elem_of_cons in Hk. destruct Hk as [Hne Hk].
  rewrite filter_cons. simpl in Hne. case_decide as E; simpl in E; [congruence|]. by apply IH.
Qed.

Lemma dict_append_grouped kvs keys k v :
  NoDup keys ->
  dict_append k v ((fun k' => (k', values_of kvs k')) <$> keys)
  = ((fun k' => (k', values_of (kvs ++ [(k, v)]) k')) <$> keys)
      ++ (if decide (k ∈ keys) then [] else [(k, [v])]).
Proof.
  intros Hnd. induction Hnd as [|k' keys Hk' Hnd IH].
  - simpl. done.
  - rewrite !fmap_cons. cbn [dict_append]. rewrite values_of_snoc.
    destruct (decide (k = k')) as [->|Hne].
    + rewrite decide_True by left. rewrite app_nil_r. f_equal.
      apply list_fmap_ext. intros i k'' Hi. f_equal.
      rewrite values_of_snoc. destruct (decide (k' = k'')) as [E|E]; [|done].
      subst k''. exfalso. apply Hk'. eapply list_elem_of_lookup_2, Hi.
    + rewrite IH. simpl. f_equal. f_equal.
      case_decide as E1; case_decide as E2; try done.
      * exfalso. apply E2. by right.
      * apply elem_of_cons in E2 as [?|?]; done.
Qed.

Lemma fill_snoc kvs k v : fill (kvs ++ [(k, v)]) = dict_append k v (fill kvs).
Proof. unfold fill. now rewrite foldl_snoc. Qed.

(** The dictionary built by the loop is the grouping of the sequence. *)
Lemma fill_grouped kvs : fill kvs = grouped kvs.
Proof.
  induction kvs as [|[k v] kvs IH] using rev_ind; [done|].
  rewrite fill_snoc, IH. unfold grouped.
  rewrite dict_append_grouped by apply NoDup_encounter_order.
  rewrite fmap_app. simpl. rewrite encounter_order_snoc.
  case_decide as Hin.
  - by rewrite app_nil_r.
  - rewrite fmap_app. simpl. f_equal. f_equal. f_equal.
    rewrite values_of_snoc, decide_True by done.
    rewrite values_of_absent; [done|].
    by rewrite <- elem_of_encounter_order.
Qed.

Lemma grouped_keys kvs : fst <$> grouped kvs = encounter_order (fst <$> kvs).
Proof.
  unfold grouped. rewrite <- list_fmap_compose.
  rewrite <- (list_fmap_id (encounter_order _)) at 2.
  by apply list_fmap_ext.
Qed.

End Dict.

(** ** The aggregator without faults *)

Lemma mapM_float_priced (flights : list FlightData) (w : World) :
  priced flights ->
  mapM (fun f => float (price f)) flights w = (Return (prices_of flights), w).
Proof.
  unfold priced, prices_of. induction 1 as [|f flights [p Hp] _ IH]; [done|].
  cbn [mapM omap list_omap]. unfold bind at 1. rewrite Hp. cbn [float].
  unfold ret at 1. unfold bind at 1. rewrite IH. done.
Qed.

Lemma prices_of_length (flights : list FlightData) :
  priced flights -> length (prices_of flights) = length flights.
Proof.
  unfold priced, prices_of. induction 1 as [|f flights [p Hp] _ IH]; [done|].
  cbn [omap list_omap]. rewrite Hp. simpl. by rewrite IH.
Qed.

Lemma route_get_ok (w : World) (route_id : Z) :
  faults w = [] -> route_get route_id w = (Return route_id, w).
Proof. intros Hf. unfold route_get, bind, ret. now rewrite (db_access_ok w Hf). Qed.

Lemma update_or_create_ok (w : World) (route d : Z) (defaults : MarketDemand) :
  faults w = [] ->
  update_or_create route d defaults w
  = (Return (bool_decide (market_demand w !! (route, d) = None)),
     set_market_demand (<[(route, d) := defaults]> (market_demand w)) w).
Proof.
  intros Hf. unfold update_or_create, bind, get_world, modify, ret.
  now rewrite (db_access_ok w Hf).
Qed.

Lemma process_group_pure (w : World) (n : nat) (key : Z * Z) (flights : list FlightData) :
  faults w = [] -> priced flights ->
  process_group n (key, flights) w
  = (Return (if bool_decide (market_demand w !! key = None) then S n else n),
     set_market_demand (upsert_group (market_demand w) (key, prices_of flights)) w).
Proof.
  intros Hf Hp. destruct key as [route_id flight_date].
  unfold process_group, bind.
  rewrite (route_get_ok w _ Hf), (mapM_float_priced _ w Hp).
  rewrite (calculate_price_trend_pure w _ _ _ Hf).
  rewrite (update_or_create_ok w _ _ _ Hf).
  unfold ret, upsert_group, row_of. simpl. rewrite (prices_of_length _ Hp). done.
Qed.

Lemma foldM_process_group_pure (groups : list ((Z * Z) * list FlightData)) :
  forall (w : World) (n : nat),
    faults w = [] -> Forall (fun g => priced g.2) groups ->
    exists n',
      foldM process_group n groups w
      = (Return n',
         set_market_demand
           (upsert_groups ((fun g => (g.1, prices_of g.2)) <$> groups) (market_demand w)) w).
Proof.
  induction groups as [|[key flights] groups IH]; intros w n Hf Hp.
  - exists n. destruct w; done.
  - apply Forall_cons in Hp as [Hp1 Hp]. cbn [foldM]. unfold bind.
    rewrite (process_group_pure w n key flights Hf Hp1).
    edestruct (IH (set_market_demand (upsert_group (market_demand w) (key, prices_of flights)) w))
      as [n' Hn']; [exact Hf | exact Hp |].
    exists n'. rewrite Hn'. done.
Qed.

Lemma route_date_groups_grouped (flights : list FlightData) :
  route_date_groups flights = grouped ((fun f => (group_key f, f)) <$> flights).
Proof.
  rewrite <- fill_grouped. unfold route_date_groups, fill.
  by rewrite foldl_fmap.
Qed.

Lemma processing_order_encounter (flights : list FlightData) :
  processing_order flights = encounter_order (group_key <$> flights).
Proof.
  unfold processing_order. rewrite route_date_groups_grouped, grouped_keys.
  by rewrite <- list_fmap_compose.
Qed.

Lemma values_of_observations (flights : list FlightData) (key : Z * Z) :
  values_of ((fun f => (group_key f, f)) <$> flights) key = observations flights key.
Proof.
  unfold values_of, observations.
  induction flights as [|f flights IH]; [done|].
  rewrite fmap_cons, !filter_cons. cbn [fst].
  destruct (decide (group_key f = key)); [rewrite fmap_cons|]; by rewrite IH.
Qed.

(** A group holds the observations of its key, all of them, in batch order. *)
Lemma route_date_groups_elem (flights : list FlightData) key group :
  (key, group) ∈ route_date_groups flights ->
  group = observations flights key /\ key ∈ (group_key <$> flights).
Proof.
  rewrite route_date_groups_grouped. unfold grouped.
  rewrite list_elem_of_fmap. intros (k & Heq & Hk).
  simpl in Heq. injection Heq as -> ->.
  rewrite values_of_observations. split; [done|].
  apply (proj1 (elem_of_encounter_order _ _)) in Hk.
  rewrite <- list_fmap_compose in Hk. exact Hk.
Qed.

Lemma route_date_groups_priced (flights : list FlightData) :
  priced flights -> Forall (fun g => priced g.2) (route_date_groups flights).
Proof.
  intros Hp. apply Forall_forall. intros [key group] Hin.
  apply route_date_groups_elem in Hin as [-> _]. simpl.
  unfold priced, observations in *. rewrite Forall_forall in Hp |- *.
  intros f Hf. apply list_elem_of_filter in Hf as [_ Hf]. by apply Hp.
Qed.

Lemma qs_exists_ok (w : World) (qs : list FlightData) :
  faults w = [] -> qs_exists qs w = (Return (nonempty qs), w).
Proof.
  intros Hf. unfold qs_exists, bind, get_world, ret.
  destruct (result_cache w); [done|]. now rewrite (db_access_ok w Hf).
Qed.

Lemma qs_iter_ok (w : World) (qs : list FlightData) :
  faults w = [] ->
  qs_iter qs w = (Return qs, if result_cache w then w else set_result_cache true w).
Proof.
  intros Hf. unfold qs_iter, bind, get_world, modify, ret.
  destruct (result_cache w); [done|]. now rewrite (db_access_ok w Hf).
Qed.

Lemma process_flight_data_pure (now : Z) (w : World) :
  faults w = [] ->
  priced (recent_flights (now - timedelta 30) w) ->
  exists n w',
    process_flight_data now w
    = (Return {| processed := n; insights_generated := 0; error := None |}, w')
    /\ market_demand w'
       = upsert_groups (priced_groups (recent_flights (now - timedelta 30) w))
                       (market_demand w)
    /\ faults w' = [] /\ flight_data w' = flight_data w /\ insights w' = insights w.
Proof.
  intros Hf Hp.
  unfold process_flight_data, try_except, bind at 1. unfold get_world at 1.
  unfold bind at 1. unfold modify at 1. unfold bind at 1.
  set (recent := recent_flights (now - timedelta 30) w) in *.
  assert (Hf' : faults (set_result_cache false w) = []) by exact Hf.
  rewrite (qs_exists_ok _ _ Hf').
  destruct recent as [|f recent'] eqn:E.
  - simpl. eexists _, _. split; [reflexivity|]. repeat split; done.
  - cbn [nonempty negb]. rewrite <- E in *. unfold bind at 1.
    rewrite (qs_iter_ok _ _ Hf'). cbn [result_cache set_result_cache].
    unfold bind at 1.
    destruct (foldM_process_group_pure (route_date_groups recent)
                (set_result_cache true (set_result_cache false w)) 0%nat)
      as [n Hn]; [exact Hf | by apply route_date_groups_priced |].
    rewrite Hn. eexists _, _. split; [reflexivity|]. repeat split; done.
Qed.

(** ** Re-running the aggregation *)

Lemma upsert_groups_cons g groups md :
  upsert_groups (g :: groups) md = upsert_groups groups (upsert_group md g).
Proof. done. Qed.

Lemma upsert_groups_other groups : forall md key,
  key ∉ (fst <$> groups) -> upsert_groups groups md !! key = md !! key.
Proof.
  induction groups as [|g groups IH]; intros md key Hk; [done|].
  rewrite fmap_cons, not_elem_of_cons in Hk. destruct Hk as [Hne Hk].
  rewrite upsert_groups_cons, IH by done.
  unfold upsert_group. by rewrite lookup_insert_ne.
Qed.

Lemma upsert_groups_elem groups : forall md key prices,
  NoDup (fst <$> groups) -> (key, prices) ∈ groups ->
  exists md', upsert_groups groups md !! key = Some (row_of md' key prices).
Proof.
  induction groups as [|g groups IH]; intros md key prices Hnd Hin.
  - by apply elem_of_nil in Hin.
  - rewrite fmap_cons in Hnd. apply NoDup_cons in Hnd as [Hg Hnd].
    rewrite upsert_groups_cons. apply elem_of_cons in Hin as [<-|Hin].
    + exists md. rewrite upsert_groups_other by done.
      unfold upsert_group. simpl. by rewrite lookup_insert_eq.
    + by apply IH.
Qed.

Lemma trend_ext md md' route current_date current_price :
  (forall d, (current_date - 7 <= d < current_date)%Z ->
             md !! (route, d) = md' !! (route, d)) ->
  trend md route current_date current_price = trend md' route current_date current_price.
Proof. intros H. unfold trend. by rewrite (historical_data_ext md md'). Qed.

Lemma date_ordered_cons k keys :
  date_ordered (k :: keys)
  <-> (forall k', k' ∈ keys -> k.1 = k'.1 -> (k.2 <= k'.2)%Z) /\ date_ordered keys.
Proof.
  unfold date_ordered. split.
  - intros H. split.
    + intros k' Hin Heq. apply list_elem_of_lookup in Hin as [j Hj].
      apply (H 0%nat (S j) k k'); [lia|done|done|done].
    + intros i j k1 k2 Hij H1 H2. apply (H (S i) (S j)); [lia|done|done].
  - intros [Hhd Htl] i j k1 k2 Hij H1 H2 Heq.
    destruct j as [|j]; [lia|]. simpl in H2. destruct i as [|i].
    + simpl in H1. injection H1 as <-. apply Hhd; [|done].
      by eapply list_elem_of_lookup_2.
    + simpl in H1. apply (Htl i j); [lia|done|done|done].
Qed.

Lemma date_ordered_sublist keys keys' :
  sublist keys keys' -> date_ordered keys' -> date_ordered keys.
Proof.
  induction 1 as [|k l1 l2 Hs IH|k l1 l2 Hs IH]; intros Ho; [done| |].
  - apply date_ordered_cons in Ho as [Hhd Htl]. apply date_ordered_cons.
    split; [|by apply IH]. intros k' Hin. apply Hhd.
    by eapply elem_of_sublist.
  - apply date_ordered_cons in Ho as [_ Htl]. by apply IH.
Qed.

Lemma encounter_order_sublist {K} `{EqDecision K} (keys : list K) :
  sublist (encounter_order keys) keys.
Proof.
  induction keys as [|k keys IH] using rev_ind; [constructor|].
  rewrite encounter_order_snoc. case_decide.
  - by apply sublist_inserts_r.
  - by apply sublist_app.
Qed.



Lemma priced_groups_keys (flights : list FlightData) :
  fst <$> priced_groups flights = processing_order flights.
Proof.
  unfold priced_groups, processing_order. rewrite <- list_fmap_compose.
  by apply list_fmap_ext.
Qed.

Lemma processing_order_date_ordered (flights : list FlightData) :
  date_ordered (group_key <$> flights) -> date_ordered (processing_order flights).
Proof.
  rewrite processing_order_encounter.
  apply date_ordered_sublist, encounter_order_sublist.
Qed.




(** C2, as the code has it: the groups are visited in the order in which
    their keys first occur in the batch, which is non-decreasing in date per
    route whenever the batch is; in any order, the history read for a date
    holds only rows of the seven days before it, never a row of a later
    date. *)
Theorem processing_order_of_batch (flights : list FlightData) :
  processing_order flights = encounter_order (group_key <$> flights)
  /\ (date_ordered (group_key <$> flights) -> date_ordered (processing_order flights))
  /\ (forall md route current_date d row,
        (d, row) ∈ historical_data md route (current_date - 7) current_date ->
        (current_date - 7 <= d < current_date)%Z /\ md !! (route, d) = Some row).
Proof.
  split; [apply processing_order_encounter|].
  split; [apply processing_order_date_ordered|].
  intros md route current_date d row. apply historical_data_elem.
Qed.

Lemma processing_order_of_batch_witness :
  date_ordered (group_key <$> Samples.in_date_order)
  /\ date_ordered (processing_order Samples.in_date_order).
Proof.
  assert (Ho : date_ordered (group_key <$> Samples.in_date_order)).
  { intros i j k k' Hij Hi Hj _.
    destruct i as [|[|i]]; destruct j as [|[|j]]; try lia;
      simpl in Hi, Hj; try discriminate;
      injection Hi as <-; injection Hj as <-; vm_compute; discriminate. }
  split; [exact Ho|].
  destruct (processing_order_of_batch Samples.in_date_order) as (_ & H & _).
  exact (H Ho).
Defined.

(** C2, as stated, fails: the groups of a batch that lists a later date
    before an earlier one are visited in that order. *)
Lemma processing_order_not_by_date :
  processing_order Samples.later_first = [(1, 10)%Z; (1, 9)%Z]
  /\ ~ date_ordered (processing_order Samples.later_first).
Proof.
  split; [reflexivity|].
  intros H. specialize (H 0%nat 1%nat (1, 10)%Z (1, 9)%Z).
  simpl in H. assert (10 <= 9)%Z by (apply H; [lia|reflexivity|reflexivity|reflexivity]).
  lia.
Qed.

(** ** Observations without a price *)

Lemma mapM_float_world (flights : list FlightData) (w : World) :
  snd (mapM (fun f => float (price f)) flights w) = w.
Proof.
  induction flights as [|f flights IH]; [done|].
  cbn [mapM]. unfold bind at 1. destruct (price f) as [p|]; [|done].
  cbn [float]. unfold ret at 1. unfold bind at 1.
  destruct (mapM _ flights w) as [[ps|e] w'] eqn:E; simpl in IH; by subst.
Qed.

Lemma mapM_float_unpriced (flights : list FlightData) (w : World) :
  ~ priced flights ->
  mapM (fun f => float (price f)) flights w = (Raise TypeError, w).
Proof.
  unfold priced. induction flights as [|f flights IH]; intros Hn.
  - exfalso. apply Hn. constructor.
  - cbn [mapM]. unfold bind at 1. destruct (price f) as [p|] eqn:Ep; [|done].
    cbn [float]. unfold ret at 1. unfold bind at 1. rewrite IH; [done|].
    intros H. apply Hn. constructor; [by rewrite Ep | done].
Qed.


Lemma priced_dec (flights : list FlightData) : {priced flights} + {~ priced flights}.
Proof. unfold priced. apply Forall_dec. intros f. apply _. Defined.


Lemma route_date_groups_has (flights : list FlightData) (key : Z * Z) :
  key ∈ (group_key <$> flights) ->
  (key, observations flights key) ∈ route_date_groups flights.
Proof.
  intros Hk. rewrite route_date_groups_grouped. unfold grouped.
  apply list_elem_of_fmap. exists key. rewrite values_of_observations.
  split; [done|]. apply elem_of_encounter_order.
  rewrite <- list_fmap_compose. exact Hk.
Qed.






(** ** Failures of the database *)

Lemma route_get_same w route_id : same_data w (snd (route_get route_id w)).
Proof.
  unfold route_get, bind, ret.
  pose proof (db_access_same w) as H. destruct (db_access w) as [[[]|e] w']; exact H.
Qed.





Lemma qs_iter_inv w qs rows w' :
  qs_iter qs w = (Return rows, w') -> rows = qs /\ same_data w w'.
Proof.
  unfold qs_iter, bind, get_world, modify, ret. destruct (result_cache w).
  - intros [= <- <-]. split; [done | apply same_data_refl].
  - pose proof (db_access_same w) as H.
    destruct (db_access w) as [[[]|e] w1]; [|discriminate]. by intros [= <- <-].
Qed.


Lemma db_access_fail (w : World) (plan : list bool) :
  faults w = true :: plan -> db_access w = (Raise DatabaseError, set_faults plan w).
Proof. intros Hf. unfold db_access. now rewrite Hf. Qed.









(** ** Computations that only read *)

Lemma only_reads_ret {A} (a : A) : only_reads (ret a).
Proof. intros w. apply same_data_refl. Qed.

Lemma only_reads_raise {A} (e : exn) : only_reads (@raise A e).
Proof. intros w. apply same_data_refl. Qed.

Lemma only_reads_get_world : only_reads get_world.
Proof. intros w. apply same_data_refl. Qed.

Lemma only_reads_db_access : only_reads db_access.
Proof. intros w. apply db_access_same. Qed.

Lemma only_reads_set_result_cache (b : bool) : only_reads (modify (set_result_cache b)).
Proof. intros w. by unfold same_data. Qed.

Lemma only_reads_bind {A B} (c : M A) (k : A -> M B) :
  only_reads c -> (forall a, only_reads (k a)) -> only_reads (bind c k).
Proof.
  intros Hc Hk w. unfold bind. specialize (Hc w).
  destruct (c w) as [[a|e] w1]; simpl in Hc; [|exact Hc].
  eapply same_data_trans; [exact Hc | apply Hk].
Qed.

Lemma only_reads_try_except {A} (c : M A) (h : exn -> M A) :
  only_reads c -> (forall e, only_reads (h e)) -> only_reads (try_except c h).
Proof.
  intros Hc Hh w. unfold try_except. specialize (Hc w).
  destruct (c w) as [[a|e] w1]; simpl in Hc; [exact Hc|].
  eapply same_data_trans; [exact Hc | apply Hh].
Qed.

Lemma only_reads_foldM {A B} (f : B -> A -> M B) (l : list A) :
  (forall b a, only_reads (f b a)) -> forall b, only_reads (foldM f b l).
Proof.
  intros Hf. induction l as [|a l IH]; intros b; cbn [foldM].
  - apply only_reads_ret.
  - apply only_reads_bind; [apply Hf | intros; apply IH].
Qed.

Lemma only_reads_mapM {A B} (f : A -> M B) (l : list A) :
  (forall a, only_reads (f a)) -> only_reads (mapM f l).
Proof.
  intros Hf. induction l as [|a l IH]; cbn [mapM].
  - apply only_reads_ret.
  - apply only_reads_bind; [apply Hf | intros].
    apply only_reads_bind; [apply IH | intros; apply only_reads_ret].
Qed.

Lemma only_reads_float (p : option Q) : only_reads (float p).
Proof. destruct p; [apply only_reads_ret | apply only_reads_raise]. Qed.

Lemma only_reads_if {A} (b : bool) (c1 c2 : M A) :
  only_reads c1 -> only_reads c2 -> only_reads (if b then c1 else c2).
Proof. by destruct b. Qed.

Ltac reads := repeat (intros; first
  [ apply only_reads_ret | apply only_reads_raise | apply only_reads_get_world
  | apply only_reads_db_access | apply only_reads_set_result_cache
  | apply only_reads_float | apply only_reads_bind | apply only_reads_try_except
  | apply only_reads_foldM | apply only_reads_mapM | apply only_reads_if ]).

Lemma only_reads_qs_exists qs : only_reads (qs_exists qs).
Proof. unfold qs_exists. reads. Qed.

Lemma only_reads_qs_iter qs : only_reads (qs_iter qs).
Proof. unfold qs_iter. reads. Qed.

Lemma only_reads_analyze_price_trends flights : only_reads (analyze_price_trends flights).
Proof. unfold analyze_price_trends. reads; apply only_reads_qs_iter. Qed.

Lemma only_reads_analyze_popular_routes flights :
  only_reads (analyze_popular_routes flights).
Proof. unfold analyze_popular_routes. reads; apply only_reads_qs_iter. Qed.

Lemma only_reads_analyze_seasonal_patterns now : only_reads (analyze_seasonal_patterns now).
Proof. unfold analyze_seasonal_patterns. reads. Qed.

Lemma only_reads_generate_gemini_insights self flights :
  only_reads (generate_gemini_insights self flights).
Proof.
  unfold generate_gemini_insights, prepare_flight_summary.
  apply only_reads_try_except; [|reads].
  destruct (model self); reads; apply only_reads_qs_iter.
Qed.

(** ** The stored insights *)

Lemma keeps_titles_reads {A} (c : M A) : only_reads c -> keeps_titles c.
Proof.
  intros Hc w Hu. destruct (Hc w) as (_ & _ & ->). done.
Qed.

Lemma keeps_titles_bind {A B} (c : M A) (k : A -> M B) :
  keeps_titles c -> (forall a, keeps_titles (k a)) -> keeps_titles (bind c k).
Proof.
  intros Hc Hk w Hu. unfold bind. specialize (Hc w Hu).
  destruct (c w) as [[a|e] w1]; simpl in Hc; [|exact Hc].
  destruct Hc as [Hu1 Hp1]. destruct (Hk a w1 Hu1) as [Hu2 Hp2].
  split; [done|]. by etrans.
Qed.

Lemma keeps_titles_try_except {A} (c : M A) (h : exn -> M A) :
  keeps_titles c -> (forall e, keeps_titles (h e)) -> keeps_titles (try_except c h).
Proof.
  intros Hc Hh w Hu. unfold try_except. specialize (Hc w Hu).
  destruct (c w) as [[a|e] w1]; simpl in Hc; [exact Hc|].
  destruct Hc as [Hu1 Hp1]. destruct (Hh e w1 Hu1) as [Hu2 Hp2].
  split; [done|]. by etrans.
Qed.

Lemma keeps_titles_foldM {A B} (f : B -> A -> M B) (l : list A) :
  (forall b a, keeps_titles (f b a)) -> forall b, keeps_titles (foldM f b l).
Proof.
  intros Hf. induction l as [|a l IH]; intros b; cbn [foldM].
  - apply keeps_titles_reads, only_reads_ret.
  - apply keeps_titles_bind; [apply Hf | intros; apply IH].
Qed.

(** With unique titles, a title selects no stored insight or exactly one. *)
Lemma filter_title_unique (stored : list Insight) (t : string) :
  unique_titles stored ->
  ((t ∉ (title <$> stored)) /\ filter (fun i => title i = t) stored = [])
  \/ (exists i, i ∈ stored /\ title i = t /\ filter (fun i => title i = t) stored = [i]).
Proof.
  unfold unique_titles. induction stored as [|i stored IH]; intros Hu.
  - left. split; [apply not_elem_of_nil | done].
  - rewrite fmap_cons in Hu. apply NoDup_cons in Hu as [Hi Hu].
    rewrite filter_cons. destruct (decide (title i = t)) as [<-|Hne].
    + right. exists i. split; [left|]. split; [done|]. f_equal.
      destruct (IH Hu) as [[_ H]|(j & Hj & Ht & _)]; [done|].
      exfalso. apply Hi. rewrite <- Ht. apply list_elem_of_fmap. eauto.
    + destruct (IH Hu) as [[Hn H]|(j & Hj & Ht & H)].
      * left. split; [|done]. rewrite fmap_cons, not_elem_of_cons. done.
      * right. exists j. split; [by right|]. done.
Qed.

Lemma get_or_create_added (w : World) t descr type confidence by_ :
  unique_titles (insights w) ->
  exists added,
    insights (snd (get_or_create t descr type confidence by_ w)) = insights w ++ added
    /\ (added = []
        \/ ((t ∉ (title <$> insights w))
            /\ exists i, added = [i] /\ title i = t /\ generated_by i = by_)).
Proof.
  intros Hu. unfold get_or_create. unfold bind at 1.
  pose proof (db_access_same w) as Hs.
  destruct (db_access w) as [[[]|e] w1]; simpl in Hs; destruct Hs as (_ & _ & Hs).
  2: { exists []. simpl. rewrite Hs, app_nil_r. eauto. }
  unfold bind at 1. unfold get_world at 1. rewrite Hs.
  destruct (filter_title_unique (insights w) t Hu) as [[Hn ->]|(i & Hi & Ht & ->)].
  - unfold bind, modify, ret. simpl. eexists. split; [reflexivity|].
    right. split; [done|]. eexists. split; [reflexivity|]. done.
  - unfold ret. simpl. exists []. rewrite Hs, app_nil_r. eauto.
Qed.

Lemma get_or_create_insights (w : World) t descr type confidence by_ :
  unique_titles (insights w) ->
  let run := get_or_create t descr type confidence by_ w in
  unique_titles (insights (snd run))
  /\ insights w `prefix_of` insights (snd run)
  /\ (t ∈ (title <$> insights w) -> insights (snd run) = insights w).
Proof.
  intros Hu run. subst run.
  destruct (get_or_create_added w t descr type confidence by_ Hu)
    as (added & -> & [->|(Hn & i & -> & Ht & _)]).
  - rewrite app_nil_r. split; [done|]. split; [reflexivity | done].
  - split; [|split].
    + unfold unique_titles. rewrite fmap_app. simpl.
      apply NoDup_app. split; [done|]. split; [|apply NoDup_singleton].
      intros x Hx Hx'. apply list_elem_of_singleton in Hx' as ->.
      rewrite Ht in Hx. done.
    + by apply prefix_app_r.
    + done.
Qed.

Lemma keeps_titles_get_or_create t descr type confidence by_ :
  keeps_titles (get_or_create t descr type confidence by_).
Proof.
  intros w Hu. destruct (get_or_create_insights w t descr type confidence by_ Hu)
    as (H1 & H2 & _). done.
Qed.

Lemma keeps_titles_save_insight by_ saved insight_data :
  keeps_titles (save_insight by_ saved insight_data).
Proof.
  unfold save_insight. destruct insight_data as [d|].
  - apply keeps_titles_bind; [apply keeps_titles_get_or_create|].
    intros. apply keeps_titles_reads, only_reads_ret.
  - apply keeps_titles_reads, only_reads_raise.
Qed.

Lemma keeps_titles_generate_mock_insights : keeps_titles generate_mock_insights.
Proof.
  unfold generate_mock_insights. apply keeps_titles_bind.
  - apply keeps_titles_foldM. intros. apply keeps_titles_save_insight.
  - intros. apply keeps_titles_reads, only_reads_ret.
Qed.

Lemma keeps_titles_generate_insights self now : keeps_titles (generate_insights self now).
Proof.
  unfold generate_insights.
  apply keeps_titles_try_except; [|intros; apply keeps_titles_generate_mock_insights].
  apply keeps_titles_bind; [apply keeps_titles_reads, only_reads_get_world|]. intros w0.
  apply keeps_titles_bind; [apply keeps_titles_reads, only_reads_set_result_cache|].
  intros _.
  apply keeps_titles_bind; [apply keeps_titles_reads, only_reads_qs_exists|].
  intros ex. destruct ex; cbn [negb]; [|apply keeps_titles_generate_mock_insights].
  apply keeps_titles_bind;
    [apply keeps_titles_reads, only_reads_analyze_price_trends|]. intros price_insights.
  apply keeps_titles_bind;
    [apply keeps_titles_reads, only_reads_analyze_popular_routes|]. intros route_insights.
  apply keeps_titles_bind;
    [apply keeps_titles_reads, only_reads_analyze_seasonal_patterns|].
  intros seasonal_insights.
  apply keeps_titles_bind.
  { apply keeps_titles_reads. destruct (model self);
      [apply only_reads_generate_gemini_insights | apply only_reads_ret]. }
  intros ai_insights.
  apply keeps_titles_bind.
  - apply keeps_titles_foldM. intros. apply keeps_titles_save_insight.
  - intros. apply keeps_titles_reads, only_reads_ret.
Qed.

(** C3: title uniqueness.  A store without two insights of one title stays
    so through insight generation (rule-based analyzers and text generator)
    and through the mock fallback, whatever the observations, the reply of
    the generator and the failures of the store; the insights already
    stored stay as they are; a candidate whose title is stored changes
    nothing, whatever its other fields. *)
Theorem insight_titles_unique (w : World) :
  unique_titles (insights w) ->
  (forall self now,
      unique_titles (insights (snd (generate_insights self now w)))
      /\ insights w `prefix_of` insights (snd (generate_insights self now w)))
  /\ (unique_titles (insights (snd (generate_mock_insights w)))
      /\ insights w `prefix_of` insights (snd (generate_mock_insights w)))
  /\ (forall t descr type confidence by_,
        unique_titles (insights (snd (get_or_create t descr type confidence by_ w)))
        /\ (t ∈ (title <$> insights w) ->
            insights (snd (get_or_create t descr type confidence by_ w)) = insights w)).
Proof.
  intros Hu. split; [|split].
  - intros self now. by apply keeps_titles_generate_insights.
  - by apply keeps_titles_generate_mock_insights.
  - intros t descr type confidence by_.
    destruct (get_or_create_insights w t descr type confidence by_ Hu) as (H1 & _ & H3).
    done.
Qed.

Lemma insight_titles_unique_witness :
  let w := Samples.world Samples.fifty ∅ [] [] in
  unique_titles (insights w)
  /\ unique_titles (insights (snd (generate_insights {| model := None |} 0 w))).
Proof.
  intros w. assert (Hu : unique_titles (insights w)) by constructor.
  split; [exact Hu|].
  destruct (insight_titles_unique w Hu) as [H _]. apply H.
Defined.

(** ** The saving loop without faults *)

Lemma get_or_create_ok (w : World) t descr type confidence by_ :
  faults w = [] ->
  get_or_create t descr type confidence by_ w
  = match filter (fun i => title i = t) (insights w) with
    | [] =>
        let i := {| id := S (length (insights w)); title := t; description := descr;
                    insight_type := type; confidence_score := confidence;
                    generated_by := by_ |} in
        (Return (i, true), set_insights (insights w ++ [i]) w)
    | [i] => (Return (i, false), w)
    | _ => (Raise MultipleObjectsReturned, w)
    end.
Proof.
  intros Hf. unfold get_or_create. unfold bind at 1. rewrite (db_access_ok w Hf).
  unfold bind at 1. unfold get_world at 1.
  destruct (filter _ (insights w)) as [|i [|j l]]; done.
Qed.

Lemma get_or_create_pure (w : World) t descr type confidence by_ :
  faults w = [] -> unique_titles (insights w) ->
  (t ∈ (title <$> insights w)
   /\ exists i, get_or_create t descr type confidence by_ w = (Return (i, false), w))
  \/ ((t ∉ (title <$> insights w))
      /\ let i := {| id := S (length (insights w)); title := t; description := descr;
                     insight_type := type; confidence_score := confidence;
                     generated_by := by_ |} in
         get_or_create t descr type confidence by_ w
         = (Return (i, true), set_insights (insights w ++ [i]) w)).
Proof.
  intros Hf Hu. rewrite (get_or_create_ok w _ _ _ _ _ Hf).
  destruct (filter_title_unique (insights w) t Hu) as [[Hn ->]|(i & Hi & Ht & ->)].
  - right. done.
  - left. split; [rewrite <- Ht; apply list_elem_of_fmap; eauto|]. eauto.
Qed.

Lemma save_loop_pure (by_ : string) (candidates : list InsightData) :
  forall (w : World) (acc : list Insight),
    faults w = [] -> unique_titles (insights w) ->
    foldM (save_insight by_) acc (Some <$> candidates) w
    = (Return (acc ++ saved_of by_ (insights w) candidates),
       set_insights (insights w ++ saved_of by_ (insights w) candidates) w).
Proof.
  induction candidates as [|d rest IH]; intros w acc Hf Hu.
  - simpl. rewrite !app_nil_r. destruct w; done.
  - rewrite fmap_cons. cbn [foldM saved_of]. unfold bind at 1.
    unfold save_insight at 1. unfold bind at 1.
    destruct (get_or_create_pure w (d_title d) (d_description d) (d_type d)
                (default (8 # 10)%Q (d_confidence d)) by_ Hf Hu)
      as [[Hin [i ->]]|[Hn ->]].
    + rewrite decide_True by done. unfold ret at 1. cbn [snd fst]. by apply IH.
    + rewrite decide_False by done. unfold ret at 1. cbn [snd fst].
      rewrite IH.
      * cbn [insights set_insights]. unfold as_insight.
        rewrite <- !app_assoc. destruct w; done.
      * exact Hf.
      * cbn [insights set_insights]. unfold unique_titles. rewrite fmap_app.
        apply NoDup_app. split; [done|]. split; [|apply NoDup_singleton].
        intros x Hx Hx'. apply list_elem_of_singleton in Hx'. simpl in Hx'. by subst x.
Qed.

Lemma saved_of_generated_by by_ candidates : forall stored,
  Forall (fun i => generated_by i = by_) (saved_of by_ stored candidates).
Proof.
  induction candidates as [|d rest IH]; intros stored; cbn [saved_of]; [constructor|].
  case_decide; [apply IH|]. constructor; [done | apply IH].
Qed.

Lemma filter_ext_elem {A} (P Q : A -> Prop) `{!forall x, Decision (P x)}
    `{!forall x, Decision (Q x)} (l : list A) :
  (forall x, x ∈ l -> (P x <-> Q x)) -> filter P l = filter Q l.
Proof.
  induction l as [|x l IH]; intros Hext; [done|].
  rewrite !filter_cons. rewrite IH by (intros y Hy; apply Hext; by right).
  destruct (decide (P x)) as [Hp|Hp].
  - rewrite decide_True; [done|]. apply Hext; [left | done].
  - rewrite decide_False; [done|]. intros Hq. apply Hp, Hext; [left | done].
Qed.

Lemma saved_of_titles by_ candidates : forall stored,
  NoDup (d_title <$> candidates) ->
  title <$> saved_of by_ stored candidates
  = filter (fun t => t ∉ (title <$> stored)) (d_title <$> candidates).
Proof.
  induction candidates as [|d rest IH]; intros stored Hnd; [done|].
  rewrite fmap_cons in Hnd. apply NoDup_cons in Hnd as [Hd Hnd].
  cbn [saved_of]. rewrite fmap_cons, filter_cons.
  destruct (decide (d_title d ∈ (title <$> stored))) as [Hin|Hn].
  - rewrite decide_False by (intros H; by apply H). by apply IH.
  - rewrite decide_True by done. rewrite fmap_cons. f_equal.
    rewrite IH by done. apply filter_ext_elem. intros t Ht.
    rewrite fmap_app, not_elem_of_app. simpl. split; [tauto|].
    intros Hs. split; [done|]. intros Hx. apply list_elem_of_singleton in Hx.
    subst t. done.
Qed.

Lemma saved_of_covers by_ candidates : forall stored d,
  d ∈ candidates ->
  d_title d ∈ (title <$> (stored ++ saved_of by_ stored candidates)).
Proof.
  induction candidates as [|c rest IH]; intros stored d Hd.
  - by apply elem_of_nil in Hd.
  - cbn [saved_of]. apply elem_of_cons in Hd as [->|Hd].
    + case_decide as Hc.
      * rewrite fmap_app, elem_of_app. by left.
      * rewrite fmap_app, elem_of_app. right. rewrite fmap_cons. left.
    + case_decide as Hc; [by apply IH|].
      specialize (IH (stored ++ [as_insight by_ (S (length stored)) c]) d Hd).
      by rewrite <- app_assoc in IH.
Qed.

(** What a saving loop returns was created by it, under its own tag,
    whatever fails. *)
Lemma save_loop_generated_by by_ candidates : forall w acc saved w',
  foldM (save_insight by_) acc candidates w = (Return saved, w') ->
  Forall (fun i => generated_by i = by_) acc ->
  Forall (fun i => generated_by i = by_) saved.
Proof.
  induction candidates as [|c rest IH]; intros w acc saved w' Hrun Hacc.
  - by injection Hrun as <- _.
  - cbn [foldM] in Hrun. unfold bind at 1 in Hrun.
    destruct (save_insight by_ acc c w) as [[acc1|e] w1] eqn:E; [|discriminate].
    apply (IH _ _ _ _ Hrun). clear Hrun IH.
    destruct c as [d|]; [|discriminate]. unfold save_insight, bind in E.
    destruct (get_or_create _ _ _ _ by_ w) as [[[i created]|e] w2] eqn:G; [|discriminate].
    injection E as <- _. destruct created; [|done]. simpl.
    apply Forall_app. split; [done|]. constructor; [|constructor].
    unfold get_or_create, bind, get_world, modify, ret, raise in G.
    destruct (db_access w) as [[[]|e] w3]; [|discriminate].
    destruct (filter _ (insights w3)) as [|j [|k l]]; [|discriminate..].
    by injection G as <- _.
Qed.

(** C8, as the code has it: over an empty observation window (no access
    failing, titles unique) insight generation makes sure that each of the
    three mock titles is stored, and returns the mock insights it has
    created in this run: those whose title was not stored before, all three
    on a store that holds none, none on a store that holds them all.  What
    it returns is tagged Mock_AI_Processor; what the saving loop of the
    data-derived insights returns is tagged AI_Processor. *)
Theorem empty_window_fallback (self : Processor) (now : Z) (w : World) :
  faults w = [] ->
  recent_flights (now - timedelta 7) w = [] ->
  unique_titles (insights w) ->
  let run := generate_insights self now w in
  exists saved,
    fst run = Return (serialize_insight <$> saved)
    /\ insights (snd run) = insights w ++ saved
    /\ title <$> saved
       = filter (fun t => t ∉ (title <$> insights w)) (d_title <$> mock_insights)
    /\ Forall (fun i => generated_by i = "Mock_AI_Processor") saved
    /\ Forall (fun d => d_title d ∈ (title <$> insights (snd run))) mock_insights
    /\ "Mock_AI_Processor" <> "AI_Processor"
    /\ (forall candidates w0 saved0 w1,
          foldM (save_insight "AI_Processor") [] candidates w0 = (Return saved0, w1) ->
          Forall (fun i => generated_by i = "AI_Processor") saved0).
Proof.
  intros Hf He Hu run. subst run.
  exists (saved_of "Mock_AI_Processor" (insights w) mock_insights).
  assert (Hrun : generate_insights self now w
                 = (Return (serialize_insight
                              <$> saved_of "Mock_AI_Processor" (insights w) mock_insights),
                    set_insights
                      (insights w ++ saved_of "Mock_AI_Processor" (insights w) mock_insights)
                      (set_result_cache false w))).
  { unfold generate_insights, try_except, bind at 1. unfold get_world at 1.
    unfold bind at 1. unfold modify at 1. unfold bind at 1.
    rewrite He. rewrite (qs_exists_ok (set_result_cache false w) [] Hf).
    cbn [nonempty negb]. unfold generate_mock_insights, bind at 1.
    rewrite (save_loop_pure "Mock_AI_Processor" mock_insights
               (set_result_cache false w) [] Hf Hu).
    done. }
  rewrite Hrun. cbn [fst snd insights set_insights].
  split; [done|]. split; [done|].
  split; [apply saved_of_titles; by compute_done|].
  split; [apply saved_of_generated_by|].
  split; [apply Forall_forall; intros d Hd; by apply saved_of_covers|].
  split; [done|].
  intros candidates w0 saved0 w1 H. by eapply save_loop_generated_by.
Qed.

Lemma empty_window_fallback_witness :
  let w := Samples.world [] ∅ [] [] in
  faults w = []
  /\ recent_flights (0 - timedelta 7) w = []
  /\ unique_titles (insights w)
  /\ exists saved,
       fst (generate_insights {| model := None |} 0 w)
       = Return (serialize_insight <$> saved)
       /\ title <$> saved = d_title <$> mock_insights.
Proof.
  intros w. assert (Hu : unique_titles (insights w)) by constructor.
  split; [reflexivity|]. split; [reflexivity|]. split; [exact Hu|].
  destruct (empty_window_fallback {| model := None |} 0 w eq_refl eq_refl Hu)
    as (saved & H1 & _ & H3 & _).
  exists saved. split; [exact H1|]. rewrite H3. reflexivity.
Defined.

(** C8, as stated, fails: a second run over an empty window, after a first
    one that stored the three mock insights, returns nothing. *)
Lemma empty_window_second_run_returns_nothing :
  let w := Samples.world [] ∅ [] [] in
  let first := generate_insights {| model := None |} 0 w in
  let second := generate_insights {| model := None |} 0 (snd first) in
  (exists l, fst first = Return l /\ s_title <$> l = d_title <$> mock_insights)
  /\ recent_flights (0 - timedelta 7) (snd first) = []
  /\ fst second = Return [].
Proof.
  intros w first second. split; [|split].
  - eexists. split; [vm_compute; reflexivity | reflexivity].
  - reflexivity.
  - vm_compute. reflexivity.
Qed.

(** ** Popular routes *)

Lemma count_route_tally (route_key route_iata : string) (d : list (string * list string)) :
  Forall (fun g => g.2 <> []) d ->
  (fun g => (g.1, tally g.2)) <$> dict_append route_key route_iata d
  = count_route route_key route_iata ((fun g => (g.1, tally g.2)) <$> d).
Proof.
  induction 1 as [|[k vs] d Hvs _ IH]; [done|].
  cbn [dict_append]. rewrite !fmap_cons. cbn [count_route fst snd].
  destruct (decide (route_key = k)) as [->|Hne].
  - rewrite fmap_cons. f_equal. cbn [fst snd]. f_equal. unfold tally.
    rewrite length_app, Nat.add_1_r. simpl. f_equal.
    destruct vs; [done|reflexivity].
  - rewrite fmap_cons, IH. done.
Qed.

Lemma dict_append_nonempty {K V} `{EqDecision K} (k : K) (v : V) (d : list (K * list V)) :
  Forall (fun g => g.2 <> []) d -> Forall (fun g => g.2 <> []) (dict_append k v d).
Proof.
  induction 1 as [|[k' vs] d Hvs Hd IH]; cbn [dict_append].
  - constructor; [done | constructor].
  - case_decide.
    + constructor; [|done]. simpl. by destruct vs.
    + constructor; [done | exact IH].
Qed.

Lemma fill_nonempty {K V} `{EqDecision K} (kvs : list (K * V)) :
  Forall (fun g => g.2 <> []) (fill kvs).
Proof.
  induction kvs as [|[k v] kvs IH] using rev_ind; [constructor|].
  rewrite fill_snoc. by apply dict_append_nonempty.
Qed.

Lemma route_counts_fill (flights : list FlightData) :
  route_counts flights = (fun g => (g.1, tally g.2)) <$> fill (city_pairs flights).
Proof.
  induction flights as [|f flights IH] using rev_ind; [done|].
  unfold route_counts, city_pairs in *. rewrite foldl_snoc, fmap_app. simpl.
  rewrite (fill_snoc _ (city_key f) (iata_key f)).
  rewrite count_route_tally by apply fill_nonempty. by rewrite IH.
Qed.

(** One entry per route name, in the order of first occurrence, with the
    number of observations of that name. *)
Lemma route_counts_grouped (flights : list FlightData) :
  route_counts flights
  = (fun name => (name, tally (values_of (city_pairs flights) name)))
      <$> encounter_order (city_key <$> flights).
Proof.
  rewrite route_counts_fill, fill_grouped. unfold grouped.
  rewrite <- list_fmap_compose. unfold city_pairs at 2.
  rewrite <- list_fmap_compose. done.
Qed.











(** ** Price volatility *)





Lemma route_prices_fill (flights : list FlightData) (w : World) :
  priced flights ->
  forall d,
    foldM (fun d flight => p <- float (price flight) ;;
                           ret (dict_append (iata_key flight) p d)) d flights w
    = (Return (foldl (fun d kv => dict_append kv.1 kv.2 d) d (route_price_pairs flights)), w).
Proof.
  unfold priced, route_price_pairs.
  induction 1 as [|f flights [p Hp] _ IH]; intros d; [done|].
  cbn [foldM omap list_omap]. unfold bind at 1. unfold bind at 1.
  rewrite Hp. cbn [float fmap option_fmap option_map foldl fst snd].
  unfold ret at 1. unfold ret at 1. apply IH.
Qed.




(** The hypothesis on the means is needed: a group whose mean is zero makes
    the division raise, the handler logs, and the analyzer returns what it
    has appended so far; the routes after it are not analysed. *)
Remark zero_mean_ends_the_analysis :
  fst (analyze_price_trends Samples.zero_then_fifty
         (Samples.world Samples.zero_then_fifty ∅ [] [])) = Return [].
Proof. vm_compute. reflexivity. Qed.

(** * Further properties *)

(** ** What the computations leave alone *)

Lemma preserves_ret {A B} (part : World -> B) (a : A) : preserves part (ret a).
Proof. by intros w. Qed.

Lemma preserves_raise {A B} (part : World -> B) (e : exn) : preserves part (@raise A e).
Proof. by intros w. Qed.

Lemma preserves_get_world {B} (part : World -> B) : preserves part get_world.
Proof. by intros w. Qed.

Lemma preserves_bind {A A' B} (part : World -> B) (c : M A) (k : A -> M A') :
  preserves part c -> (forall a, preserves part (k a)) -> preserves part (bind c k).
Proof.
  intros Hc Hk w. unfold bind. specialize (Hc w).
  destruct (c w) as [[a|e] w1]; simpl in Hc; [|exact Hc].
  rewrite <- Hc. apply Hk.
Qed.

Lemma preserves_try_except {A B} (part : World -> B) (c : M A) (h : exn -> M A) :
  preserves part c -> (forall e, preserves part (h e)) -> preserves part (try_except c h).
Proof.
  intros Hc Hh w. unfold try_except. specialize (Hc w).
  destruct (c w) as [[a|e] w1]; simpl in Hc; [exact Hc|].
  rewrite <- Hc. apply Hh.
Qed.

Lemma preserves_foldM {A A' B} (part : World -> B) (f : A' -> A -> M A') (l : list A) :
  (forall b a, preserves part (f b a)) -> forall b, preserves part (foldM f b l).
Proof.
  intros Hf. induction l as [|a l IH]; intros b; cbn [foldM].
  - apply preserves_ret.
  - apply preserves_bind; [apply Hf | intros; apply IH].
Qed.

Lemma preserves_modify {B} (part : World -> B) (f : World -> World) :
  (forall w, part (f w) = part w) -> preserves part (modify f).
Proof. intros Hf w. apply Hf. Qed.

Lemma preserves_if {A B} (part : World -> B) (b : bool) (c1 c2 : M A) :
  preserves part c1 -> preserves part c2 -> preserves part (if b then c1 else c2).
Proof. by destruct b. Qed.

Lemma only_reads_preserves {A} (c : M A) :
  only_reads c ->
  preserves flight_data c /\ preserves market_demand c /\ preserves insights c.
Proof.
  intros Hc. repeat split; intros w; by destruct (Hc w) as (? & ? & ?).
Qed.

Lemma only_reads_calculate_price_trend route current_date current_price :
  only_reads (calculate_price_trend route current_date current_price).
Proof.
  intros w.
  destruct (calculate_price_trend_returns w route current_date current_price)
    as (t & w' & -> & H). exact H.
Qed.

Lemma only_reads_route_get route_id : only_reads (route_get route_id).
Proof. intros w. apply route_get_same. Qed.

Lemma preserves_of_reads {A B} (part : World -> B) (c : M A) :
  (forall w w', same_data w w' -> part w' = part w) ->
  only_reads c -> preserves part c.
Proof. intros Hpart Hc w. apply Hpart, Hc. Qed.

Section Frames.
Context {B : Type} (part : World -> B).
Hypothesis part_of_data : forall w w', same_data w w' -> part w' = part w.

Lemma preserves_process_flight_data (now : Z) :
  (forall m w, part (set_market_demand m w) = part w) ->
  preserves part (process_flight_data now).
Proof.
  intros Hmd. unfold process_flight_data.
  apply preserves_try_except; [|intros; apply preserves_ret].
  apply preserves_bind; [apply preserves_get_world|]. intros w0.
  apply preserves_bind;
    [apply preserves_of_reads, only_reads_set_result_cache; exact part_of_data|].
  intros _.
  apply preserves_bind;
    [apply preserves_of_reads, only_reads_qs_exists; exact part_of_data|].
  intros ex. apply preserves_if; [apply preserves_ret|].
  apply preserves_bind;
    [apply preserves_of_reads, only_reads_qs_iter; exact part_of_data|].
  intros flights. apply preserves_bind; [|intros; apply preserves_ret].
  apply preserves_foldM. intros n [[route_id flight_date] group].
  unfold process_group.
  apply preserves_bind;
    [apply preserves_of_reads, only_reads_route_get; exact part_of_data|].
  intros route. apply preserves_bind.
  { apply preserves_of_reads; [exact part_of_data|].
    apply only_reads_mapM. intros. apply only_reads_float. }
  intros prices. apply preserves_bind;
    [apply preserves_of_reads, only_reads_calculate_price_trend; exact part_of_data|].
  intros t. apply preserves_bind; [|intros; apply preserves_ret].
  unfold update_or_create.
  apply preserves_bind;
    [apply preserves_of_reads, only_reads_db_access; exact part_of_data|].
  intros _. apply preserves_bind; [apply preserves_get_world|]. intros w1.
  apply preserves_bind; [|intros; apply preserves_ret].
  apply preserves_modify. intros w. apply Hmd.
Qed.

Lemma preserves_get_or_create t descr type confidence by_ :
  (forall l w, part (set_insights l w) = part w) ->
  preserves part (get_or_create t descr type confidence by_).
Proof.
  intros Hins. unfold get_or_create.
  apply preserves_bind;
    [apply preserves_of_reads, only_reads_db_access; exact part_of_data|].
  intros _. apply preserves_bind; [apply preserves_get_world|]. intros w1.
  destruct (filter _ (insights w1)) as [|i [|j l]];
    [|apply preserves_ret|apply preserves_raise].
  apply preserves_bind; [|intros; apply preserves_ret].
  apply preserves_modify. intros w. apply Hins.
Qed.

Lemma preserves_save_loop by_ candidates :
  (forall l w, part (set_insights l w) = part w) ->
  forall acc, preserves part (foldM (save_insight by_) acc candidates).
Proof.
  intros Hins. apply preserves_foldM. intros acc [d|]; unfold save_insight.
  - apply preserves_bind; [by apply preserves_get_or_create|].
    intros. apply preserves_ret.
  - apply preserves_raise.
Qed.

Lemma preserves_generate_mock_insights :
  (forall l w, part (set_insights l w) = part w) ->
  preserves part generate_mock_insights.
Proof.
  intros Hins. unfold generate_mock_insights.
  apply preserves_bind; [by apply preserves_save_loop|]. intros. apply preserves_ret.
Qed.

Lemma preserves_generate_insights self now :
  (forall l w, part (set_insights l w) = part w) ->
  preserves part (generate_insights self now).
Proof.
  intros Hins. unfold generate_insights.
  apply preserves_try_except; [|intros; by apply preserves_generate_mock_insights].
  apply preserves_bind; [apply preserves_get_world|]. intros w0.
  apply preserves_bind;
    [apply preserves_of_reads, only_reads_set_result_cache; exact part_of_data|].
  intros _.
  apply preserves_bind;
    [apply preserves_of_reads, only_reads_qs_exists; exact part_of_data|].
  intros ex. apply preserves_if; [by apply preserves_generate_mock_insights|].
  apply preserves_bind;
    [apply preserves_of_reads, only_reads_analyze_price_trends; exact part_of_data|].
  intros price_insights.
  apply preserves_bind;
    [apply preserves_of_reads, only_reads_analyze_popular_routes; exact part_of_data|].
  intros route_insights.
  apply preserves_bind;
    [apply preserves_of_reads, only_reads_analyze_seasonal_patterns; exact part_of_data|].
  intros seasonal_insights.
  apply preserves_bind.
  { apply preserves_of_reads; [exact part_of_data|]. destruct (model self);
      [apply only_reads_generate_gemini_insights | apply only_reads_ret]. }
  intros ai_insights.
  apply preserves_bind; [by apply preserves_save_loop|]. intros. apply preserves_ret.
Qed.

End Frames.

Lemma update_or_create_writes w route d defaults :
  market_demand (snd (update_or_create route d defaults w)) = market_demand w
  \/ market_demand (snd (update_or_create route d defaults w))
     = <[(route, d) := defaults]> (market_demand w).
Proof.
  unfold update_or_create, bind, get_world, modify, ret.
  pose proof (db_access_same w) as H.
  destruct (db_access w) as [[[]|e] w1]; destruct H as (_ & H & _); simpl in *.
  - right. by rewrite H.
  - by left.
Qed.

Lemma process_group_writes w n key flights o w' :
  process_group n (key, flights) w = (o, w') ->
  market_demand w' = market_demand w
  \/ exists row, market_demand w' = <[key := row]> (market_demand w).
Proof.
  destruct key as [route_id flight_date]. unfold process_group. unfold bind at 1.
  pose proof (route_get_same w route_id) as H1.
  destruct (route_get route_id w) as [[r|e] w1] eqn:E1; destruct H1 as (_ & H1 & _);
    simpl in H1; [|intros [= _ <-]; by left].
  assert (r = route_id) as ->.
  { unfold route_get, bind, ret in E1.
    destruct (db_access w) as [[[]|?] ?]; congruence. }
  unfold bind at 1.
  pose proof (mapM_float_world flights w1) as H2.
  destruct (mapM _ flights w1) as [[prices|e] w2]; simpl in H2; subst w2;
    [|intros [= _ <-]; by left].
  unfold bind at 1.
  destruct (calculate_price_trend_returns w1 route_id flight_date (mean prices))
    as (t & w3 & -> & (_ & H3 & _)).
  unfold bind at 1.
  match goal with |- context [update_or_create ?a ?b ?c w3] =>
    pose proof (update_or_create_writes w3 a b c) as H4;
    destruct (update_or_create a b c w3) as [[created|e] w4] end;
    simpl in H4; rewrite H3, H1 in H4; unfold ret; cbn beta iota; intros [= _ <-];
    (destruct H4 as [H4|H4]; [by left | eauto]).
Qed.

Lemma foldM_process_group_writes groups : forall w n,
  (forall key, key ∉ (fst <$> groups) ->
     market_demand (snd (foldM process_group n groups w)) !! key
     = market_demand w !! key)
  /\ (forall key, is_Some (market_demand w !! key) ->
       is_Some (market_demand (snd (foldM process_group n groups w)) !! key)).
Proof.
  induction groups as [|[key flights] groups IH]; intros w n; [done|].
  cbn [foldM]. unfold bind.
  destruct (process_group n (key, flights) w) as [[n1|e] w1] eqn:E;
    apply process_group_writes in E as Hw.
  - destruct (IH w1 n1) as [Hother Hdom]. split.
    + intros key' Hk'. apply not_elem_of_cons in Hk'.
      destruct Hk' as [Hne Hk']. simpl in Hne. rewrite Hother by done.
      destruct Hw as [->|[row ->]]; [done|]. by rewrite lookup_insert_ne.
    + intros key' Hs. apply Hdom. destruct Hw as [->|[row ->]]; [done|].
      destruct (decide (key = key')) as [->|Hne].
      * rewrite lookup_insert_eq. eauto.
      * by rewrite lookup_insert_ne.
  - simpl. split.
    + intros key' Hk'. apply not_elem_of_cons in Hk'.
      destruct Hk' as [Hne Hk']. simpl in Hne.
      destruct Hw as [->|[row ->]]; [done|]. by rewrite lookup_insert_ne.
    + intros key' Hs. destruct Hw as [->|[row ->]]; [done|].
      destruct (decide (key = key')) as [->|Hne].
      * rewrite lookup_insert_eq. eauto.
      * by rewrite lookup_insert_ne.
Qed.

Lemma process_flight_data_writes (now : Z) (w : World) o w' :
  process_flight_data now w = (o, w') ->
  (forall key, key ∉ (group_key <$> recent_flights (now - timedelta 30) w) ->
               market_demand w' !! key = market_demand w !! key)
  /\ (forall key, is_Some (market_demand w !! key) -> is_Some (market_demand w' !! key)).
Proof.
  unfold process_flight_data, try_except.
  unfold bind at 1. unfold get_world at 1. unfold bind at 1. unfold modify at 1.
  unfold bind at 1.
  set (recent := recent_flights (now - timedelta 30) w).
  pose proof (only_reads_qs_exists recent (set_result_cache false w)) as H1.
  destruct (qs_exists recent (set_result_cache false w)) as [[ex|e] w1];
    destruct H1 as (_ & H1 & _); simpl in H1;
    [|unfold ret; cbn beta iota; intros [= _ <-]; by rewrite H1].
  destruct ex; cbn [negb]; [|unfold ret; cbn beta iota; intros [= _ <-]; by rewrite H1].
  unfold bind at 1.
  pose proof (only_reads_qs_iter recent w1) as H3.
  destruct (qs_iter recent w1) as [[rows|e] w2] eqn:E2;
    destruct H3 as (_ & H3 & _); simpl in H3;
    [|unfold ret; cbn beta iota; intros [= _ <-]; by rewrite H3, H1].
  apply qs_iter_inv in E2 as [-> _]. unfold bind at 1.
  destruct (foldM_process_group_writes (route_date_groups recent) w2 0%nat)
    as [Hother Hdom].
  change (fst <$> route_date_groups recent) with (processing_order recent) in Hother.
  rewrite H3, H1 in Hother, Hdom.
  destruct (foldM process_group 0%nat (route_date_groups recent) w2) as [[a|e] w3];
    unfold ret; cbn beta iota; intros [= _ <-]; simpl in Hother, Hdom;
    (split; [|exact Hdom]; intros key Hk; apply Hother;
     rewrite processing_order_encounter; by rewrite elem_of_encounter_order).
Qed.

(** X1: the aggregation touches nothing but the rows of its batch.  In every
    world, whatever fails, it leaves the stored insights and the flight
    observations as they are, does not change a market-demand row whose
    (route, date) is not a key of the batch, and removes no row. *)
Theorem aggregation_touches_batch_rows_only (now : Z) (w : World) :
  let w' := snd (process_flight_data now w) in
  insights w' = insights w
  /\ flight_data w' = flight_data w
  /\ (forall key, key ∉ (group_key <$> recent_flights (now - timedelta 30) w) ->
                  market_demand w' !! key = market_demand w !! key)
  /\ (forall key, is_Some (market_demand w !! key) ->
                  is_Some (market_demand w' !! key)).
Proof.
  intros w'. subst w'.
  split; [apply (preserves_process_flight_data insights); [by intros ? ? (? & ? & ?) | done]|].
  split; [apply (preserves_process_flight_data flight_data); [by intros ? ? (? & ? & ?) | done]|].
  destruct (process_flight_data now w) as [o w'] eqn:E.
  by apply (process_flight_data_writes now w o w').
Qed.

(** X2: insight generation and its fallback write insights only: in every
    world, whatever fails, the market-demand rows and the flight
    observations are as they were. *)
Theorem insight_generation_writes_insights_only (self : Processor) (now : Z) (w : World) :
  market_demand (snd (generate_insights self now w)) = market_demand w
  /\ flight_data (snd (generate_insights self now w)) = flight_data w
  /\ market_demand (snd (generate_mock_insights w)) = market_demand w
  /\ flight_data (snd (generate_mock_insights w)) = flight_data w.
Proof.
  split; [apply (preserves_generate_insights market_demand); [by intros ? ? (? & ? & ?) | done]|].
  split; [apply (preserves_generate_insights flight_data); [by intros ? ? (? & ? & ?) | done]|].
  split; [apply (preserves_generate_mock_insights market_demand); [by intros ? ? (? & ? & ?) | done]|].
  apply (preserves_generate_mock_insights flight_data); [by intros ? ? (? & ? & ?) | done].
Qed.

(** ** Groups and counts *)

Lemma concat_dict_append {K V} `{EqDecision K} (k : K) (v : V) (d : list (K * list V)) :
  concat (snd <$> dict_append k v d) ≡ₚ concat (snd <$> d) ++ [v].
Proof.
  induction d as [|[k' vs] d IH]; [done|].
  cbn [dict_append]. case_decide; rewrite !fmap_cons; cbn [concat snd].
  - rewrite <- !app_assoc. apply Permutation_app_head, Permutation_app_comm.
  - rewrite IH, app_assoc. done.
Qed.

Lemma concat_fill {K V} `{EqDecision K} (kvs : list (K * V)) :
  concat (snd <$> fill kvs) ≡ₚ snd <$> kvs.
Proof.
  induction kvs as [|[k v] kvs IH] using rev_ind; [done|].
  rewrite fill_snoc, concat_dict_append, IH, fmap_app. done.
Qed.

Lemma sum_list_tally (d : list (string * list string)) :
  sum_list ((fun item => count item.2) <$> ((fun g => (g.1, tally g.2)) <$> d))
  = length (concat (snd <$> d)).
Proof.
  induction d as [|[k vs] d IH]; [done|].
  rewrite !fmap_cons. cbn [sum_list concat snd]. rewrite length_app, <- IH. done.
Qed.

(** X3: grouping loses and duplicates nothing.  The groups that the
    aggregator builds hold every observation of the batch exactly once, each
    under its own (route, date) key, no key twice and no group empty; the
    counts that the popularity analyzer builds add up to the number of
    observations. *)
Theorem grouping_is_a_partition (flights : list FlightData) :
  concat (snd <$> route_date_groups flights) ≡ₚ flights
  /\ NoDup (fst <$> route_date_groups flights)
  /\ (forall key group,
        (key, group) ∈ route_date_groups flights ->
        group <> [] /\ Forall (fun f => group_key f = key) group)
  /\ sum_list ((fun item => count item.2) <$> route_counts flights) = length flights.
Proof.
  split.
  { rewrite route_date_groups_grouped, <- fill_grouped, concat_fill.
    rewrite <- list_fmap_compose. by rewrite list_fmap_id. }
  split.
  { change (fst <$> route_date_groups flights) with (processing_order flights).
    rewrite processing_order_encounter. apply NoDup_encounter_order. }
  split.
  { intros key group Hin. apply route_date_groups_elem in Hin as [-> Hk]. split.
    - apply list_elem_of_fmap in Hk as (f & -> & Hf). unfold observations.
      intros He. assert (Hin : f ∈ filter (fun f0 => group_key f0 = group_key f) flights)
        by by apply list_elem_of_filter.
      rewrite He in Hin. by apply elem_of_nil in Hin.
    - apply Forall_forall. intros f Hf. unfold observations in Hf.
      by apply list_elem_of_filter in Hf as [? _]. }
  rewrite route_counts_fill, sum_list_tally, concat_fill.
  unfold city_pairs. by rewrite !length_fmap.
Qed.

(** ** The count of processed rows *)

Lemma foldM_process_group_count (groups : list ((Z * Z) * list FlightData)) :
  forall (w : World) (n : nat),
    faults w = [] -> Forall (fun g => priced g.2) groups ->
    NoDup (fst <$> groups) ->
    fst (foldM process_group n groups w)
    = Return (n + length (filter (fun key => market_demand w !! key = None)
                                 (fst <$> groups))).
Proof.
  induction groups as [|[key flights] groups IH]; intros w n Hf Hp Hnd.
  - simpl. by rewrite Nat.add_0_r.
  - apply Forall_cons in Hp as [Hp1 Hp]. apply NoDup_cons in Hnd as [Hk Hnd].
    cbn [foldM]. unfold bind.
    rewrite (process_group_pure w n key flights Hf Hp1).
    rewrite IH by done. f_equal. cbn [market_demand set_market_demand].
    rewrite fmap_cons, filter_cons. cbn [fst].
    rewrite (filter_ext_elem
               (fun key0 => upsert_group (market_demand w) (key, prices_of flights) !! key0 = None)
               (fun key0 => market_demand w !! key0 = None)).
    + destruct (decide (market_demand w !! key = None)) as [E|E].
      * rewrite bool_decide_eq_true_2 by done. simpl. lia.
      * rewrite bool_decide_eq_false_2 by done. done.
    + intros key' Hin. unfold upsert_group. simpl.
      rewrite lookup_insert_ne; [done|]. intros ->. done.
Qed.

Lemma process_flight_data_count (now : Z) (w : World) :
  faults w = [] ->
  priced (recent_flights (now - timedelta 30) w) ->
  fst (process_flight_data now w)
  = Return {| processed := length (new_keys (market_demand w)
                                     (recent_flights (now - timedelta 30) w));
              insights_generated := 0; error := None |}.
Proof.
  intros Hf Hp.
  unfold process_flight_data, try_except, bind at 1. unfold get_world at 1.
  unfold bind at 1. unfold modify at 1. unfold bind at 1.
  set (recent := recent_flights (now - timedelta 30) w) in *.
  assert (Hf' : faults (set_result_cache false w) = []) by exact Hf.
  rewrite (qs_exists_ok _ _ Hf').
  destruct recent as [|f recent'] eqn:E; [done|].
  cbn [nonempty negb]. rewrite <- E in *. unfold bind at 1.
  rewrite (qs_iter_ok _ _ Hf'). cbn [result_cache set_result_cache].
  unfold bind at 1.
  assert (Hc := foldM_process_group_count (route_date_groups recent)
                (set_result_cache true (set_result_cache false w)) 0%nat Hf
                (route_date_groups_priced recent Hp)).
  change (fst <$> route_date_groups recent) with (processing_order recent) in Hc.
  rewrite processing_order_encounter in Hc.
  specialize (Hc (NoDup_encounter_order _)).
  rewrite <- processing_order_encounter in Hc.
  destruct (foldM process_group 0%nat (route_date_groups recent) _) as [[n|e] w3];
    simpl in Hc; [|discriminate].
  injection Hc as ->. done.
Qed.

(** ** Rounding to cents *)



(** ** What a run of the aggregation stores and reports *)



(** X5: the count of processed rows.  Without faults and with every price
    present, the result reports as processed the number of keys of the
    batch that the store did not hold before the run, not the number of
    rows written; a second run over the same observations writes the same
    keys again and reports 0. *)
Theorem processed_counts_created_rows (now : Z) (w : World) :
  faults w = [] ->
  priced (recent_flights (now - timedelta 30) w) ->
  let batch := recent_flights (now - timedelta 30) w in
  fst (process_flight_data now w)
  = Return {| processed := length (new_keys (market_demand w) batch);
              insights_generated := 0; error := None |}
  /\ (forall key, key ∈ (group_key <$> batch) ->
        is_Some (market_demand (snd (process_flight_data now w)) !! key))
  /\ fst (process_flight_data now (snd (process_flight_data now w)))
     = Return {| processed := 0; insights_generated := 0; error := None |}.
Proof.
  intros Hf Hp batch.
  split; [by apply process_flight_data_count|].
  destruct (process_flight_data_pure now w Hf Hp) as (n & w' & E & Hmd & Hf' & Hfd & _).
  rewrite E. cbn [snd].
  assert (Hrecent : recent_flights (now - timedelta 30) w' = batch).
  { unfold batch, recent_flights. by rewrite Hfd. }
  assert (Hstored : forall key, key ∈ (group_key <$> batch) ->
                                is_Some (market_demand w' !! key)).
  { intros key Hk. rewrite Hmd. fold batch.
    assert (Hin : (key, prices_of (observations batch key)) ∈ priced_groups batch).
    { unfold priced_groups. apply list_elem_of_fmap.
      exists (key, observations batch key). split; [done|].
      by apply route_date_groups_has. }
    assert (Hnd : NoDup (fst <$> priced_groups batch)).
    { rewrite priced_groups_keys, processing_order_encounter.
      apply NoDup_encounter_order. }
    destruct (upsert_groups_elem _ (market_demand w) _ _ Hnd Hin) as [md' ->]. eauto. }
  split; [exact Hstored|].
  rewrite process_flight_data_count; [|exact Hf' | by rewrite Hrecent].
  rewrite Hrecent. do 2 f_equal. unfold new_keys.
  destruct (filter _ (processing_order batch)) as [|key l] eqn:El; [done|].
  assert (Hin : key ∈ filter (fun key => market_demand w' !! key = None)
                        (processing_order batch)) by (rewrite El; left).
  apply list_elem_of_filter in Hin as [Hnone Hin].
  rewrite processing_order_encounter, elem_of_encounter_order in Hin.
  destruct (Hstored key Hin) as [row Hrow]. congruence.
Qed.

Lemma processed_counts_created_rows_witness :
  let w := Samples.world Samples.fifty {[ (1, 2)%Z := Samples.row (40 # 1) ]} [] [] in
  faults w = []
  /\ priced (recent_flights (0 - timedelta 30) w)
  /\ fst (process_flight_data 0 w)
     = Return {| processed := 2; insights_generated := 0; error := None |}.
Proof.
  intros w.
  assert (Hp : priced (recent_flights (0 - timedelta 30) w))
    by (repeat constructor; eexists; reflexivity).
  split; [reflexivity|]. split; [exact Hp|].
  destruct (processed_counts_created_rows 0 w eq_refl Hp) as [H _].
  rewrite H. vm_compute. reflexivity.
Defined.

(** X6: the aggregation of an empty window.  When no observation is recent
    the run writes no row, whatever the fault plan: it reports 0 processed
    rows without error when its one access to the store succeeds, and the
    error of that access when it fails. *)
Theorem aggregation_of_empty_window (now : Z) (w : World) :
  recent_flights (now - timedelta 30) w = [] ->
  market_demand (snd (process_flight_data now w)) = market_demand w
  /\ (match faults w with
      | true :: _ =>
          fst (process_flight_data now w)
          = Return {| processed := 0; insights_generated := 0;
                      error := Some DatabaseError |}
      | _ =>
          fst (process_flight_data now w)
          = Return {| processed := 0; insights_generated := 0; error := None |}
      end)
  /\ faults (snd (process_flight_data now w)) = tail (faults w).
Proof.
  intros He. split.
  { apply map_eq. intros key.
    destruct (process_flight_data now w) as [o w'] eqn:E.
    destruct (process_flight_data_writes now w o w' E) as [H _].
    apply H. rewrite He. apply not_elem_of_nil. }
  destruct (process_flight_data now w) as [o w'] eqn:E. cbn [fst snd].
  unfold process_flight_data, try_except in E.
  unfold bind at 1 in E. unfold get_world at 1 in E.
  unfold bind at 1 in E. unfold modify at 1 in E. unfold bind at 1 in E.
  rewrite He in E. unfold qs_exists, bind, get_world, ret, db_access in E.
  cbn [result_cache set_result_cache faults] in E.
  destruct (faults w) as [|[] plan] eqn:Ef; cbn in E; injection E as <- <-;
    (split; [done|]); simpl; done.
Qed.

Lemma aggregation_of_empty_window_witness :
  let w := Samples.world [] {[ (1, 2)%Z := Samples.row (40 # 1) ]} [] [true] in
  recent_flights (0 - timedelta 30) w = []
  /\ market_demand (snd (process_flight_data 0 w)) = market_demand w.
Proof.
  intros w. split; [reflexivity|].
  destruct (aggregation_of_empty_window 0 w eq_refl) as [H _]. exact H.
Defined.

(** ** The analyzers without faults *)

Lemma all_priced_spec (flights : list FlightData) :
  all_priced flights = true <-> priced flights.
Proof.
  unfold all_priced, priced. rewrite forallb_forall, Forall_forall.
  split; intros H f Hf.
  - apply list_elem_of_In in Hf. specialize (H f Hf). destruct (price f); [eauto|done].
  - apply list_elem_of_In in Hf. destruct (H f Hf) as [p ->]. done.
Qed.

Lemma all_priced_false (flights : list FlightData) :
  all_priced flights = false <-> ~ priced flights.
Proof.
  rewrite <- all_priced_spec. destruct (all_priced flights); split; try done.
Qed.

Lemma route_prices_unpriced (flights : list FlightData) (w : World) :
  ~ priced flights ->
  forall d,
    foldM (fun d flight => p <- float (price flight) ;;
                           ret (dict_append (iata_key flight) p d)) d flights w
    = (Raise TypeError, w).
Proof.
  unfold priced. induction flights as [|f flights IH]; intros Hn d.
  - exfalso. apply Hn. constructor.
  - cbn [foldM]. unfold bind at 1. unfold bind at 1.
    destruct (price f) as [p|] eqn:Ep; [|done].
    cbn [float]. unfold ret at 1. unfold ret at 1. apply IH.
    intros H. apply Hn. constructor; [by rewrite Ep | done].
Qed.

Lemma analyze_price_trends_run (flights : list FlightData) (w : World) :
  faults w = [] ->
  analyze_price_trends flights w
  = (Return (price_candidates flights),
     if result_cache w then w else set_result_cache true w).
Proof.
  intros Hf. unfold analyze_price_trends, try_except, price_candidates.
  unfold bind at 1. rewrite (qs_iter_ok w flights Hf). unfold bind at 1.
  destruct (all_priced flights) eqn:E.
  - apply all_priced_spec in E. rewrite (route_prices_fill flights _ E). unfold ret.
    change (foldl _ [] (route_price_pairs flights)) with (fill (route_price_pairs flights)).
    by rewrite fill_grouped.
  - apply all_priced_false in E. by rewrite (route_prices_unpriced flights _ E).
Qed.

Lemma analyze_popular_routes_run (flights : list FlightData) (w : World) :
  faults w = [] ->
  analyze_popular_routes flights w
  = (Return (popular_candidates flights),
     if result_cache w then w else set_result_cache true w).
Proof.
  intros Hf. unfold analyze_popular_routes, try_except, bind.
  by rewrite (qs_iter_ok w flights Hf).
Qed.

Lemma priced_filter (P : FlightData -> bool) (flights : list FlightData) :
  priced flights -> priced (List.filter P flights).
Proof.
  unfold priced. rewrite !Forall_forall. intros H f Hf.
  apply list_elem_of_In, filter_In in Hf as [Hf _]. apply H. by apply list_elem_of_In.
Qed.

Lemma priced_split (P : FlightData -> bool) (flights : list FlightData) :
  priced (List.filter P flights) ->
  priced (List.filter (fun f => negb (P f)) flights) ->
  priced flights.
Proof.
  unfold priced. rewrite !Forall_forall. intros H1 H2 f Hf.
  apply list_elem_of_In in Hf. destruct (P f) eqn:E.
  - apply H1. apply list_elem_of_In, filter_In. done.
  - apply H2. apply list_elem_of_In, filter_In. by rewrite E.
Qed.

Lemma nonempty_prices_of (flights : list FlightData) :
  priced flights -> nonempty (prices_of flights) = nonempty flights.
Proof.
  intros Hp. pose proof (prices_of_length flights Hp) as H.
  destruct flights, (prices_of _); done.
Qed.

Lemma analyze_seasonal_patterns_run (now : Z) (w : World) :
  faults w = [] ->
  analyze_seasonal_patterns now w
  = (Return (seasonal_candidates (seasonal_flights now w)), w).
Proof.
  intros Hf. unfold analyze_seasonal_patterns, try_except.
  unfold bind at 1. unfold get_world at 1.
  fold (seasonal_flights now w). set (flights := seasonal_flights now w).
  unfold bind at 1. rewrite (db_access_ok w Hf).
  unfold seasonal_candidates, weekend_prices, weekday_prices.
  destruct flights as [|f0 flights'] eqn:Efl; [done|]. rewrite <- Efl. 
  assert (nonempty flights = true) as -> by by rewrite Efl.
  cbn [negb]. unfold bind at 1. rewrite (db_access_ok w Hf). unfold bind at 1.
  destruct (priced_dec (List.filter is_weekend flights)) as [Hwe|Hwe].
  2: { rewrite (mapM_float_unpriced _ w Hwe).
       assert (all_priced flights = false) as ->; [|done].
       apply all_priced_false. intros H. by apply Hwe, priced_filter. }
  rewrite (mapM_float_priced _ w Hwe). unfold bind at 1.
  destruct (priced_dec (List.filter (fun f => negb (is_weekend f)) flights)) as [Hwd|Hwd].
  2: { rewrite (mapM_float_unpriced _ w Hwd).
       assert (all_priced flights = false) as ->; [|done].
       apply all_priced_false. intros H. by apply Hwd, priced_filter. }
  rewrite (mapM_float_priced _ w Hwd).
  assert (all_priced flights = true) as ->
    by (apply all_priced_spec; exact (priced_split is_weekend flights Hwe Hwd)).
  cbn [andb].
  destruct (nonempty (prices_of (List.filter is_weekend flights))),
    (nonempty (prices_of (List.filter (fun f => negb (is_weekend f)) flights)));
    cbn [andb]; try done.
  destruct (Qltb _ _); [|done]. by destruct (Qeq_bool _ _).
Qed.

Lemma prepare_flight_summary_cached (flights : list FlightData) (w : World) :
  result_cache w = true -> prepare_flight_summary flights w = (Return tt, w).
Proof.
  intros Hc. unfold prepare_flight_summary, try_except. unfold bind at 1.
  unfold qs_iter, bind at 1. unfold get_world at 1. rewrite Hc. unfold ret at 1.
  unfold bind at 1. pose proof (mapM_float_world flights w) as H.
  destruct (mapM _ flights w) as [[ps|e] w1]; simpl in H; by subst w1.
Qed.

Lemma generate_gemini_insights_cached (self : Processor) (flights : list FlightData)
    (w : World) :
  result_cache w = true ->
  generate_gemini_insights self flights w = (Return (default [] (model self)), w).
Proof.
  intros Hc. unfold generate_gemini_insights, try_except.
  destruct (model self) as [reply|]; [|done].
  unfold bind. by rewrite (prepare_flight_summary_cached flights w Hc).
Qed.

(** ** The saving loop *)





(** ** A run of insight generation without faults *)

Lemma generate_insights_run (self : Processor) (now : Z) (w : World) :
  faults w = [] ->
  recent_flights (now - timedelta 7) w <> [] ->
  let w1 := set_result_cache true (set_result_cache false w) in
  generate_insights self now w
  = match foldM (save_insight "AI_Processor") []
            ((Some <$> rule_candidates now w) ++ default [] (model self)) w1 with
    | (Return saved, w2) => (Return (serialize_insight <$> saved), w2)
    | (Raise _, w2) => generate_mock_insights w2
    end.
Proof.
  intros Hf Hne w1.
  unfold generate_insights, try_except. unfold bind at 1. unfold get_world at 1.
  unfold bind at 1. unfold modify at 1. unfold bind at 1.
  set (recent := recent_flights (now - timedelta 7) w) in *.
  assert (Hf0 : faults (set_result_cache false w) = []) by exact Hf.
  assert (Hf1 : faults w1 = []) by exact Hf.
  rewrite (qs_exists_ok _ recent Hf0).
  assert (nonempty recent = true) as -> by by destruct recent.
  cbn [negb]. unfold bind at 1.
  rewrite (analyze_price_trends_run recent _ Hf0). cbn [result_cache set_result_cache].
  fold w1. unfold bind at 1.
  rewrite (analyze_popular_routes_run recent w1 Hf1). cbn [result_cache set_result_cache w1].
  fold w1. unfold bind at 1.
  rewrite (analyze_seasonal_patterns_run now w1 Hf1). unfold bind at 1.
  assert (Hai : (if model self is Some _
                 then generate_gemini_insights self recent else ret []) w1
                = (Return (default [] (model self)), w1)).
  { destruct (model self) as [reply|] eqn:Em; [|done].
    rewrite (generate_gemini_insights_cached self recent w1 eq_refl). by rewrite Em. }
  rewrite Hai. unfold bind at 1.
  change (seasonal_flights now w1) with (seasonal_flights now w).
  unfold rule_candidates. fold recent.
  destruct (foldM _ _ _ w1) as [[saved|e] w2]; done.
Qed.








(** ** The seasonal analyzer *)




(** ** Failures inside the analyzers *)

Lemma never_raises_try_except {A} (c : M A) (a : A) :
  never_raises (try_except c (fun _ => ret a)).
Proof.
  intros w. unfold try_except, ret. destruct (c w) as [[x|e] w1]; eauto.
Qed.

Lemma qs_iter_fail (w : World) (qs : list FlightData) (plan : list bool) :
  result_cache w = false -> faults w = true :: plan ->
  qs_iter qs w = (Raise DatabaseError, set_faults plan w).
Proof.
  intros Hc Hf. unfold qs_iter, bind, get_world. rewrite Hc.
  now rewrite (db_access_fail w plan Hf).
Qed.

(** X11: the analyzers keep their failures to themselves.  In every world,
    whatever fails, each of the three rule-based analyzers and the text
    generator returns a list and changes nothing stored.  An observation
    without a price makes the price analyzer return the empty list and
    leaves the popularity analyzer, which reads no price, with its full
    result; a failed fetch of the observations makes the analyzer that
    issued it return the empty list. *)
Theorem analyzers_keep_their_failures (self : Processor) (now : Z)
    (flights : list FlightData) :
  (never_raises (analyze_price_trends flights)
   /\ never_raises (analyze_popular_routes flights)
   /\ never_raises (analyze_seasonal_patterns now)
   /\ never_raises (generate_gemini_insights self flights))
  /\ (only_reads (analyze_price_trends flights)
      /\ only_reads (analyze_popular_routes flights)
      /\ only_reads (analyze_seasonal_patterns now)
      /\ only_reads (generate_gemini_insights self flights))
  /\ (forall w, faults w = [] -> ~ priced flights ->
        fst (analyze_price_trends flights w) = Return []
        /\ fst (analyze_popular_routes flights w)
           = Return (imap popular_route (take 3 (sorted_desc (route_counts flights)))))
  /\ (forall w plan, result_cache w = false -> faults w = true :: plan ->
        fst (analyze_price_trends flights w) = Return []
        /\ fst (analyze_popular_routes flights w) = Return []).
Proof.
  split; [|split; [|split]].
  - split; [apply never_raises_try_except|]. split; [apply never_raises_try_except|].
    split; apply never_raises_try_except.
  - split; [apply only_reads_analyze_price_trends|].
    split; [apply only_reads_analyze_popular_routes|].
    split; [apply only_reads_analyze_seasonal_patterns|].
    apply only_reads_generate_gemini_insights.
  - intros w Hf Hp. rewrite (analyze_price_trends_run flights w Hf).
    rewrite (analyze_popular_routes_run flights w Hf). cbn [fst].
    unfold price_candidates. apply all_priced_false in Hp. by rewrite Hp.
  - intros w plan Hc Hf. unfold analyze_price_trends, analyze_popular_routes, try_except.
    unfold bind at 1. rewrite (qs_iter_fail w flights plan Hc Hf).
    unfold bind at 1. rewrite (qs_iter_fail w flights plan Hc Hf). done.
Qed.

(** ** A zero mean in the price analyzer *)




(** ** Saving and finding an insight *)



(** ** The history that a trend reads *)

(** X14: the trend of a date reads the seven days before it and nothing
    else.  Without faults, two stores that agree on the rows of the route
    dated within the seven days before the date give the same trend; so
    writing a row of another route, of the date itself or a later one, or of
    more than seven days before, does not change it.  A most recent row
    with average price zero gives stable, whatever the new average. *)
Theorem price_trend_reads_its_window_only (w : World) (R D : Z) (new_avg : Q) :
  faults w = [] ->
  (forall w', faults w' = [] ->
     (forall d, (D - 7 <= d < D)%Z ->
                market_demand w' !! (R, d) = market_demand w !! (R, d)) ->
     fst (calculate_price_trend R D new_avg w')
     = fst (calculate_price_trend R D new_avg w))
  /\ (forall R' d' row,
        R' <> R \/ (d' < D - 7)%Z \/ (D <= d')%Z ->
        fst (calculate_price_trend R D new_avg
               (set_market_demand (<[(R', d') := row]> (market_demand w)) w))
        = fst (calculate_price_trend R D new_avg w))
  /\ (forall d row,
        (D - 7 <= d < D)%Z ->
        market_demand w !! (R, d) = Some row ->
        (forall d', (d < d' < D)%Z -> market_demand w !! (R, d') = None) ->
        (average_price row == 0)%Q ->
        fst (calculate_price_trend R D new_avg w) = Return stable).
Proof.
  intros Hf.
  assert (Hagree : forall w', faults w' = [] ->
     (forall d, (D - 7 <= d < D)%Z ->
                market_demand w' !! (R, d) = market_demand w !! (R, d)) ->
     fst (calculate_price_trend R D new_avg w')
     = fst (calculate_price_trend R D new_avg w)).
  { intros w' Hf' Hsame.
    rewrite (calculate_price_trend_pure w' R D new_avg Hf').
    rewrite (calculate_price_trend_pure w R D new_avg Hf). cbn [fst]. f_equal.
    by apply trend_ext. }
  split; [exact Hagree|]. split.
  - intros R' d' row Hout. apply Hagree; [exact Hf|].
    intros d Hd. cbn [market_demand set_market_demand].
    apply lookup_insert_ne. intros [= -> ->]. lia.
  - intros d row Hd Hrow Hlater Hz.
    rewrite (calculate_price_trend_pure w R D new_avg Hf). cbn [fst]. unfold trend.
    rewrite (historical_data_first _ _ _ _ d row Hd Hrow Hlater). unfold trend_of.
    apply Qeq_eq_bool in Hz. by rewrite Hz.
Qed.

Lemma price_trend_reads_its_window_only_witness :
  let w := Samples.world [] {[ (1, 9)%Z := Samples.row (100 # 1) ]} [] [] in
  faults w = []
  /\ fst (calculate_price_trend 1 10 (200 # 1)
            (set_market_demand (<[(1, 2)%Z := Samples.row (500 # 1)]> (market_demand w)) w))
     = Return increasing.
Proof.
  intros w. split; [reflexivity|].
  destruct (price_trend_reads_its_window_only w 1 10 (200 # 1) eq_refl) as (_ & H & _).
  rewrite (H 1%Z 2%Z (Samples.row (500 # 1))); [|lia].
  vm_compute. reflexivity.
Defined.

(** ** Routes of the popularity analyzer *)

Lemma values_of_city_pairs (flights : list FlightData) (name : string) :
  values_of (city_pairs flights) name
  = iata_key <$> filter (fun f => city_key f = name) flights.
Proof.
  unfold values_of, city_pairs.
  induction flights as [|f flights IH]; [done|].
  rewrite fmap_cons, !filter_cons. cbn [fst].
  destruct (decide (city_key f = name)); [rewrite !fmap_cons|]; by rewrite IH.
Qed.

Lemma route_counts_keys (flights : list FlightData) :
  fst <$> route_counts flights = encounter_order (city_key <$> flights).
Proof.
  rewrite route_counts_grouped, <- list_fmap_compose.
  rewrite <- (list_fmap_id (encounter_order _)) at 2. by apply list_fmap_ext.
Qed.

(** X15: the popularity analyzer tells routes apart by their city names.
    Each entry of its table stands for the observations whose origin and
    destination cities give its name, whatever their airports: its count is
    their number and its IATA pair is the one of the first of them in the
    batch. *)
Theorem popular_routes_are_city_pairs (flights : list FlightData) :
  (forall name data,
      (name, data) ∈ route_counts flights ->
      let same_cities := filter (fun f => city_key f = name) flights in
      count data = length same_cities
      /\ exists f, head same_cities = Some f /\ iata data = iata_key f)
  /\ (forall f, f ∈ flights -> city_key f ∈ (fst <$> route_counts flights))
  /\ fst <$> route_counts MoreSamples.two_airports = ["Sydney to Melbourne"].
Proof.
  split; [|split; [|reflexivity]].
  - intros name data Hin same_cities. rewrite route_counts_grouped in Hin.
    apply list_elem_of_fmap in Hin as (k & Heq & Hk). injection Heq as -> ->.
    apply (proj1 (elem_of_encounter_order _ _)) in Hk.
    apply list_elem_of_fmap in Hk as (f0 & -> & Hf0).
    unfold tally. cbn [count iata]. rewrite values_of_city_pairs.
    subst same_cities. rewrite length_fmap. split; [done|].
    assert (Hin : f0 ∈ filter (fun f => city_key f = city_key f0) flights)
      by by apply list_elem_of_filter.
    destruct (filter (fun f => city_key f = city_key f0) flights) as [|f rest].
    + by apply elem_of_nil in Hin.
    + exists f. done.
  - intros f Hf. rewrite route_counts_keys. apply elem_of_encounter_order.
    apply list_elem_of_fmap. eauto.
Qed.

(** ** The API view *)

Lemma save_loop_healthy (by_ : string) (candidates : list (option InsightData)) :
  forall w acc, faults w = [] ->
                faults (snd (foldM (save_insight by_) acc candidates w)) = [].
Proof.
  induction candidates as [|c rest IH]; intros w acc Hf; [done|].
  cbn [foldM]. unfold bind at 1. destruct c as [d|]; [|done].
  unfold save_insight at 1. unfold bind at 1.
  rewrite (get_or_create_ok w _ _ _ _ _ Hf).
  destruct (filter _ (insights w)) as [|i [|j l]]; cbn zeta beta iota.
  - unfold ret at 1. cbn [snd fst]. by apply IH.
  - unfold ret at 1. cbn [snd fst]. by apply IH.
  - done.
Qed.

Lemma generate_mock_insights_healthy (w : World) :
  faults w = [] -> unique_titles (insights w) ->
  exists l, fst (generate_mock_insights w) = Return l.
Proof.
  intros Hf Hu. unfold generate_mock_insights, bind.
  rewrite (save_loop_pure "Mock_AI_Processor" mock_insights w [] Hf Hu). eauto.
Qed.

(** With a healthy store and unique titles insight generation returns a
    list, whatever the observations and the reply of the generator. *)
Lemma generate_insights_healthy (self : Processor) (now : Z) (w : World) :
  faults w = [] -> unique_titles (insights w) ->
  exists l, fst (generate_insights self now w) = Return l.
Proof.
  intros Hf Hu.
  destruct (recent_flights (now - timedelta 7) w) as [|f recent] eqn:E.
  - unfold generate_insights, try_except. unfold bind at 1. unfold get_world at 1.
    unfold bind at 1. unfold modify at 1. unfold bind at 1.
    rewrite E. rewrite (qs_exists_ok (set_result_cache false w) [] Hf).
    cbn [nonempty negb].
    destruct (generate_mock_insights_healthy (set_result_cache false w) Hf Hu)
      as [l Hl].
    destruct (generate_mock_insights (set_result_cache false w)) as [[l'|e] w'];
      [eauto | discriminate].
  - rewrite (generate_insights_run self now w Hf) by (rewrite E; discriminate).
    set (w1 := set_result_cache true (set_result_cache false w)).
    set (candidates := (Some <$> rule_candidates now w) ++ default [] (model self)).
    pose proof (save_loop_healthy "AI_Processor" candidates w1 [] Hf) as Hf2.
    assert (Hk : keeps_titles (foldM (save_insight "AI_Processor") [] candidates)).
    { apply keeps_titles_foldM. intros. apply keeps_titles_save_insight. }
    destruct (Hk w1 Hu) as [Hu2 _].
    destruct (foldM (save_insight "AI_Processor") [] candidates w1) as [[saved|e] w2];
      [eauto|].
    by apply generate_mock_insights_healthy.
Qed.

(** X16: the API view always answers.  In every world the view returns a
    response and raises nothing: the success response, with the count of
    the returned insights in its message, when insight generation returns,
    and the failure response with status 500 when it raises.  With a store
    that does not fail and holds no title twice the response is the success
    one, whatever the observations and the reply of the generator. *)
Theorem api_view_always_answers (self : Processor) (now : Z) (w : World) :
  (exists r, fst (generate_insights_api self now w) = Return r)
  /\ (forall l, fst (generate_insights self now w) = Return l ->
        fst (generate_insights_api self now w)
        = Return (Response200 ("Generated " +:+ pretty (length l) +:+ " insights") l))
  /\ (forall e, fst (generate_insights self now w) = Raise e ->
        fst (generate_insights_api self now w) = Return (Response500 e))
  /\ (faults w = [] -> unique_titles (insights w) ->
      exists l,
        fst (generate_insights_api self now w)
        = Return (Response200 ("Generated " +:+ pretty (length l) +:+ " insights") l)).
Proof.
  assert (H200 : forall l, fst (generate_insights self now w) = Return l ->
            fst (generate_insights_api self now w)
            = Return (Response200 ("Generated " +:+ pretty (length l) +:+ " insights") l)).
  { intros l Hl. unfold generate_insights_api, try_except, bind, ret.
    destruct (generate_insights self now w) as [[l'|e] w']; simpl in Hl; [|discriminate].
    by injection Hl as ->. }
  assert (H500 : forall e, fst (generate_insights self now w) = Raise e ->
            fst (generate_insights_api self now w) = Return (Response500 e)).
  { intros e He. unfold generate_insights_api, try_except, bind, ret.
    destruct (generate_insights self now w) as [[l'|e'] w']; simpl in He; [discriminate|].
    by injection He as ->. }
  split; [|split; [exact H200|split; [exact H500|]]].
  - destruct (fst (generate_insights self now w)) as [l|e] eqn:E.
    + rewrite (H200 l eq_refl). eauto.
    + rewrite (H500 e eq_refl). eauto.
  - intros Hf Hu. destruct (generate_insights_healthy self now w Hf Hu) as [l Hl].
    exists l. by apply H200.
Qed.
